(** * A leveled logger: shallow embedding of [logger.go] and its properties

    The package keeps one process-wide [Logger] holding four [log.Logger]s
    (one per severity), a list of closers and a flag; a package-level mutex
    guards every write and the closing loop.  The embedding threads an
    explicit [World] (open sinks, the mutex, the package variables, a trace
    of sink calls) through a small outcome monad, and takes what the
    environment supplies at a call (clock, call stack, the kernel's answer
    to an open) as an [Env] argument. *)

From Stdlib Require Import ZArith Ascii String Bool Lia ZifyBool.
From stdpp Require Import base tactics option list gmap strings.

Local Open Scope Z_scope.

(** ** Bytes and strings *)

Definition LF : ascii := "010"%char.
Definition nl : string := String LF "".

(** [strings.Count(s, "\n")] *)
Fixpoint count_nl (s : string) : nat :=
  match s with
  | EmptyString => O
  | String c s' => (if Ascii.eqb c LF then 1 else 0)%nat + count_nl s'
  end.

(** last byte of a string, when there is one: [s[len(s)-1]] *)
Fixpoint last_byte (s : string) : option ascii :=
  match s with
  | EmptyString => None
  | String c EmptyString => Some c
  | String _ s' => last_byte s'
  end.

(** ** Decimal notation *)

(** the ten decimal digits *)
Definition decimal_digit (d : Z) : ascii :=
  match String.get (Z.to_nat d) "0123456789" with
  | Some c => c
  | None => "?"%char
  end.

(** [n] in exactly [k] decimal digits, most significant first *)
Fixpoint dec (k : nat) (n : Z) : string :=
  match k with
  | O => ""
  | S k' => dec k' (n / 10) +:+ String (decimal_digit (n mod 10)) ""
  end.

Fixpoint numeral_digits (fuel : nat) (n : Z) : string :=
  match fuel with
  | O => ""
  | S fuel' =>
      if n <? 10 then String (decimal_digit n) ""
      else numeral_digits fuel' (n / 10) +:+ String (decimal_digit (n mod 10)) ""
  end.

(** the decimal numeral of a natural number, without leading zeros *)
Definition numeral (n : Z) : string :=
  numeral_digits (S (Z.to_nat (Z.log2 n))) n.

(** ** Sinks, events, handles *)

(** An [io.Writer]/[io.Closer] value is a handle into the table of open
    sinks; passing one handle twice aliases one sink. *)
Definition Handle := nat.

Definition Stdout : Handle := 1%nat.
Definition Stderr : Handle := 2%nat.

Record Sink := mkSink {
  sink_name : string;            (* how the value prints under %v *)
  content : string;              (* bytes received so far *)
  closed : bool;
  closeErr : option string       (* the error its first Close reports *)
}.

Inductive Event :=
| EvWrite (h : Handle) (data : string)
| EvClose (h : Handle)
| EvOpen (path : string) (flag perm : Z).

(** ** What the environment supplies at a call *)

(** A stack frame: the source position a function is executing at. *)
Record Frame := mkFrame { file : string; line : Z }.

(** A calendar reading of an instant. *)
Record Civil := mkCivil {
  year : Z; month : Z; day : Z;
  hour : Z; minute : Z; second : Z;
  nanosecond : Z
}.

(** [time.Time]: the instant as read in the local zone and in UTC. *)
Record Time := mkTime { local : Civil; utc : Civil }.

Definition Time_UTC (t : Time) : Time := mkTime (utc t) (utc t).
Definition Time_Date (t : Time) : Z * Z * Z :=
  (year (local t), month (local t), day (local t)).
Definition Time_Clock (t : Time) : Z * Z * Z :=
  (hour (local t), minute (local t), second (local t)).
Definition Time_Nanosecond (t : Time) : Z := nanosecond (local t).

Record Env := mkEnv {
  now : Time;                    (* time.Now() *)
  callers : list Frame;          (* frames above the running function,
                                    nearest first *)
  stack_dump : list Frame -> string;
                                 (* how debug.Stack() prints the frames *)
  sys_open : string -> Z -> Z -> Sink + string
                                 (* the kernel's answer to an open:
                                    the opened file or an error *)
}.

(** calling a function from position [f] *)
Definition enter (f : Frame) (env : Env) : Env :=
  mkEnv (now env) (f :: callers env) (stack_dump env) (sys_open env).

(** [runtime.Caller(skip)] run by a function whose own frame is [here]:
    0 is that function, 1 its caller, and so on. *)
Definition runtime_Caller (skip : Z) (here : Frame) (env : Env) : option Frame :=
  if skip <? 0 then None else (here :: callers env) !! Z.to_nat skip.

(** ** The standard library's [fmt] printing, for the operands used here *)

Module fmt.

Inductive value :=
| VString (s : string)         (* an operand of kind string *)
| VInt (i : Z)                 (* an operand of an integer kind *)
| VOther (repr : string).      (* any other operand, with its %v text:
                                  an error, a nil pointer, a file *)

Definition isString (v : value) : bool :=
  match v with VString _ => true | _ => false end.

Definition fmtInteger (i : Z) : string :=
  if i <? 0 then "-" +:+ numeral (- i) else numeral i.

(** [printArg(arg, 'v')] *)
Definition printArg (v : value) : string :=
  match v with
  | VString s => s
  | VInt i => fmtInteger i
  | VOther r => r
  end.

(** [doPrint]: a space goes between two operands when neither is a
    string. *)
Fixpoint doPrint (prevString : bool) (argNum : nat) (a : list value) : string :=
  match a with
  | [] => ""
  | arg :: a' =>
      (if (0 <? argNum)%nat && negb (isString arg) && negb prevString
       then " " else "")
      +:+ printArg arg +:+ doPrint (isString arg) (S argNum) a'
  end.

Definition Sprint (a : list value) : string := doPrint false 0 a.

(** [doPrintln]: a space goes between all operands, a newline at the end. *)
Fixpoint doPrintln (argNum : nat) (a : list value) : string :=
  match a with
  | [] => nl
  | arg :: a' =>
      (if (0 <? argNum)%nat then " " else "")
      +:+ printArg arg +:+ doPrintln (S argNum) a'
  end.

Definition Sprintln (a : list value) : string := doPrintln 0 a.

End fmt.

(** ** The standard library's [log]: flags, header, line *)

Module log.

(** [1 << iota] *)
Definition Ldate : Z := Z.shiftl 1 0.
Definition Ltime : Z := Z.shiftl 1 1.
Definition Lmicroseconds : Z := Z.shiftl 1 2.
Definition Llongfile : Z := Z.shiftl 1 3.
Definition Lshortfile : Z := Z.shiftl 1 4.
Definition LUTC : Z := Z.shiftl 1 5.
Definition Lmsgprefix : Z := Z.shiftl 1 6.
Definition LstdFlags : Z := Z.lor Ldate Ltime.

Record Logger := New {
  out : Handle;
  prefix : string;
  flag : Z
}.

(** [byte('0' + d)] *)
Definition digit (d : Z) : ascii := ascii_of_N (Z.to_N ((48 + d) mod 256)).

(** The loop of [itoa], filling a 20-byte scratch array from its end. *)
Fixpoint itoa_loop (room : nat) (i wid : Z) (b : string) : string :=
  match room with
  | O => b
  | S room' =>
      if (10 <=? i) || (1 <? wid) then
        let q := Z.quot i 10 in
        itoa_loop room' q (wid - 1) (String (digit (i - q * 10)) b)
      else String (digit i) b
  end.

(** [itoa(buf, i, wid)]: decimal, zero-padded to [wid]. *)
Definition itoa (buf : string) (i wid : Z) : string :=
  buf +:+ itoa_loop 20 i wid "".

(** The scan for the last ['/'] at an index above 0. *)
Fixpoint shortfile_loop (file : string) (i : nat) : string :=
  match i with
  | O => file
  | S i' =>
      match String.get i file with
      | Some c =>
          if Ascii.eqb c "/" then
            String.substring (i + 1) (String.length file - (i + 1)) file
          else shortfile_loop file i'
      | None => shortfile_loop file i'
      end
  end.

Definition shortfile (file : string) : string :=
  shortfile_loop file (String.length file - 1).

Definition has (flag bits : Z) : bool := negb (Z.land flag bits =? 0).

Definition formatHeader (buf : string) (t : Time) (prefix : string)
    (flag : Z) (file : string) (line : Z) : string :=
  let buf := if negb (has flag Lmsgprefix) then buf +:+ prefix else buf in
  let buf :=
    if has flag (Z.lor Ldate (Z.lor Ltime Lmicroseconds)) then
      let t := if has flag LUTC then Time_UTC t else t in
      let buf :=
        if has flag Ldate then
          let '(year, month, day) := Time_Date t in
          let buf := itoa buf year 4 in
          let buf := buf +:+ "/" in
          let buf := itoa buf month 2 in
          let buf := buf +:+ "/" in
          let buf := itoa buf day 2 in
          buf +:+ " "
        else buf in
      if has flag (Z.lor Ltime Lmicroseconds) then
        let '(hour, min, sec) := Time_Clock t in
        let buf := itoa buf hour 2 in
        let buf := buf +:+ ":" in
        let buf := itoa buf min 2 in
        let buf := buf +:+ ":" in
        let buf := itoa buf sec 2 in
        let buf :=
          if has flag Lmicroseconds then
            itoa (buf +:+ ".") (Z.quot (Time_Nanosecond t) 1000) 6
          else buf in
        buf +:+ " "
      else buf
    else buf in
  let buf :=
    if has flag (Z.lor Lshortfile Llongfile) then
      let file := if has flag Lshortfile then shortfile file else file in
      let buf := buf +:+ file in
      let buf := buf +:+ ":" in
      let buf := itoa buf line (-1) in
      buf +:+ ": "
    else buf in
  if has flag Lmsgprefix then buf +:+ prefix else buf.

(** [Output]'s own frame; the release of the library fixes its line. *)
Definition here : Frame := mkFrame "log/log.go" 0.

(** The bytes one [Output(calldepth, s)] hands to the writer. *)
Definition entry (l : Logger) (calldepth : Z) (s : string) (env : Env) : string :=
  let now := now env in
  let '(file, line) :=
    if has (flag l) (Z.lor Lshortfile Llongfile) then
      match runtime_Caller calldepth here env with
      | Some f => (file f, line f)
      | None => ("???", 0)
      end
    else ("", 0) in
  let buf := formatHeader "" now (prefix l) (flag l) file line in
  let buf := buf +:+ s in
  if (String.length s =? 0)%nat || negb (bool_decide (last_byte s = Some LF))
  then buf +:+ nl else buf.

End log.

(** ** The package's data *)

Definition severity := Z.

Definition sInfo : severity := 0.
Definition sWarning : severity := 1.
Definition sError : severity := 2.
Definition sFatal : severity := 3.

Record Logger := mkLogger {
  infoLog : log.Logger;
  warningLog : log.Logger;
  errorLog : log.Logger;
  fatalLog : log.Logger;
  closers : list Handle;
  initialized : bool
}.

(** Package-level variables live in the world next to the sinks. *)
Record World := mkWorld {
  sinks : gmap nat Sink;
  trace : list Event;
  logLock : bool;
  defaultLogger : option Logger
}.

Definition set_sinks (f : gmap nat Sink -> gmap nat Sink) (w : World) : World :=
  mkWorld (f (sinks w)) (trace w) (logLock w) (defaultLogger w).
Definition emit (e : Event) (w : World) : World :=
  mkWorld (sinks w) (trace w ++ [e]) (logLock w) (defaultLogger w).
Definition set_logLock (b : bool) (w : World) : World :=
  mkWorld (sinks w) (trace w) b (defaultLogger w).
Definition set_defaultLogger (l : option Logger) (w : World) : World :=
  mkWorld (sinks w) (trace w) (logLock w) l.

(** ** Outcomes *)

Inductive Outcome (A : Type) :=
| Ret (a : A)              (* normal return *)
| Exit (code : Z)          (* os.Exit: no deferred call runs *)
| Panic (v : string)       (* a panic travelling up the stack *)
| Blocked.                 (* waiting for a mutex that is held *)
Arguments Ret {A} a.
Arguments Exit {A} code.
Arguments Panic {A} v.
Arguments Blocked {A}.

Definition Go (A : Type) : Type := World -> Outcome A * World.

#[export] Instance Go_ret : MRet Go := fun A a w => (Ret a, w).

#[export] Instance Go_bind : MBind Go := fun A B k m w =>
  match m w with
  | (Ret a, w') => k a w'
  | (Exit c, w') => (Exit c, w')
  | (Panic v, w') => (Panic v, w')
  | (Blocked, w') => (Blocked, w')
  end.

Definition panic {A} (v : string) : Go A := fun w => (Panic v, w).

(** [defer d; body]: [d] runs when [body] returns or panics, not when the
    process exits or the goroutine is stuck. *)
Definition defer {A} (d : World -> World) (body : Go A) : Go A :=
  fun w =>
    match body w with
    | (Ret a, w') => (Ret a, d w')
    | (Panic v, w') => (Panic v, d w')
    | r => r
    end.

(** [for _, x := range xs { body x }] *)
Fixpoint for_range {A} (xs : list A) (body : A -> Go unit) : Go unit :=
  match xs with
  | [] => mret tt
  | x :: xs' => body x ;; for_range xs' body
  end.

Definition nilDeref : string :=
  "runtime error: invalid memory address or nil pointer dereference".

(** reading a field through a pointer that may be nil *)
Definition deref {A} (p : option A) : Go A :=
  match p with
  | Some a => mret a
  | None => panic nilDeref
  end.

(** ** [sync.Mutex] for [logLock] *)

Definition Lock : Go unit :=
  fun w => if logLock w then (Blocked, w) else (Ret tt, set_logLock true w).

(** Every [Unlock] of the package is deferred right after a [Lock] that
    returned, so the mutex is held when it runs. *)
Definition Unlock : World -> World := set_logLock false.

(** ** Sink calls *)

Definition ErrClosed : string := "file already closed".
Definition ErrInvalid : string := "invalid argument".

(** [w.Write(data)]: the error is [None] on success. *)
Definition Write (h : Handle) (data : string) : Go (option string) :=
  fun w =>
    let w1 := emit (EvWrite h data) w in
    match sinks w !! h with
    | None => (Ret (Some ErrInvalid), w1)
    | Some s =>
        if closed s then (Ret (Some ErrClosed), w1)
        else (Ret None,
              set_sinks (insert h (mkSink (sink_name s) (content s +:+ data)
                                          false (closeErr s))) w1)
    end.

(** [c.Close()] *)
Definition sink_Close (h : Handle) : Go (option string) :=
  fun w =>
    let w1 := emit (EvClose h) w in
    match sinks w !! h with
    | None => (Ret (Some ErrInvalid), w1)
    | Some s =>
        if closed s then (Ret (Some ErrClosed), w1)
        else (Ret (closeErr s),
              set_sinks (insert h (mkSink (sink_name s) (content s)
                                          true (closeErr s))) w1)
    end.

Definition os_Exit {A} (code : Z) : Go A := fun w => (Exit code, w).

(** ** Calls into [log] and [os] that touch the world *)

(** [l.Output(calldepth, s)]: one [Write] of the whole entry. *)
Definition log_Output (l : log.Logger) (calldepth : Z) (s : string)
    (env : Env) : Go (option string) :=
  Write (log.out l) (log.entry l calldepth s env).

(** the package-level logger of [log] *)
Definition log_std : log.Logger := log.New Stderr "" log.LstdFlags.

(** [log.Fatalln(v...)] *)
Definition log_Fatalln {A} (v : list fmt.value) (env : Env) : Go A :=
  log_Output log_std 2 (fmt.Sprintln v) env ;; os_Exit 1.

(** Open flags and their values on Linux. *)
Definition O_RDONLY : Z := 0.
Definition O_WRONLY : Z := 1.
Definition O_RDWR : Z := 2.
Definition O_CREATE : Z := 64.
Definition O_EXCL : Z := 128.
Definition O_TRUNC : Z := 512.
Definition O_APPEND : Z := 1024.

(** [os.OpenFile(name, flag, perm)]: the kernel decides; a file it opens
    gets a handle not in use. *)
Definition os_OpenFile (name : string) (flag perm : Z) (env : Env)
    : Go (Handle + string) :=
  fun w =>
    let w1 := emit (EvOpen name flag perm) w in
    match sys_open env name flag perm with
    | inl f =>
        let h := fresh (dom (sinks w)) in
        (Ret (inl h), set_sinks (insert h f) w1)
    | inr e => (Ret (inr e), w1)
    end.

(** how a closer prints under [%v] *)
Definition show (c : Handle) : Go fmt.value :=
  fun w =>
    (Ret (fmt.VOther (match sinks w !! c with
                      | Some s => sink_name s
                      | None => "<nil>"
                      end)), w).

(** ** The package *)

Definition flags : Z := Z.lor log.Ldate (Z.lor log.Ltime log.Lshortfile).

Definition this_file : string := "github.com/anabiozz/logger/logger.go".
Definition at_line (n : Z) : Frame := mkFrame this_file n.

Definition get_defaultLogger : Go (option Logger) :=
  fun w => (Ret (defaultLogger w), w).

Record CustomError := mkCustomError {
  Message : string;
  StackTrace : string
}.

(** [ErrorStruct] embeds [CustomError]. *)
Record ErrorStruct := mkErrorStruct { embedded : CustomError }.

(** The [error] interface. *)
Class error (E : Type) := Error_of : E -> string.

Definition CustomError_Error (err : CustomError) : string := Message err.

#[export] Instance CustomError_error : error CustomError := CustomError_Error.
(** the method promoted from the embedded field *)
#[export] Instance ErrorStruct_error : error ErrorStruct :=
  fun e => CustomError_Error (embedded e).

(** [errors.New(text)] *)
Record errorString := errors_New { text : string }.
#[export] Instance errorString_error : error errorString := text.

(** [debug.Stack()]: the dump of the running goroutine's frames. *)
Definition debug_Stack (env : Env) : string := stack_dump env (callers env).

Definition WrapError (messagef : string) (env : Env) : CustomError :=
  {| Message := messagef;
     StackTrace := debug_Stack (enter (at_line 149) env) |}.

(** [err] is [None] for the nil interface value. *)
Definition Return `{error E} (err : option E) (env : Env) : Go ErrorStruct :=
  e ← deref err;
  mret (mkErrorStruct (WrapError (Error_of e) (enter (at_line 155) env))).

Section Package.

(** [fmt.Sprintf], the standard library's printf. *)
Variable Sprintf : string -> list fmt.value -> string.

Definition Fprintf (h : Handle) (format : string) (a : list fmt.value)
    : Go (option string) :=
  Write h (Sprintf format a).

Definition output (l : option Logger) (s : severity) (depth : Z)
    (txt : string) (env : Env) : Go unit :=
  Lock ;;
  defer Unlock (
    if s =? sInfo then
      l' ← deref l;
      log_Output (infoLog l') (3 + depth) txt (enter (at_line 45) env) ;;
      mret tt
    else if s =? sWarning then
      l' ← deref l;
      log_Output (warningLog l') (3 + depth) txt (enter (at_line 47) env) ;;
      mret tt
    else if s =? sError then
      l' ← deref l;
      log_Output (errorLog l') (3 + depth) txt (enter (at_line 49) env) ;;
      mret tt
    else if s =? sFatal then
      l' ← deref l;
      log_Output (fatalLog l') (3 + depth) txt (enter (at_line 51) env) ;;
      mret tt
    else
      panic (fmt.Sprintln [fmt.VString "unrecognized severity: "; fmt.VInt s])).

Definition Info (v : list fmt.value) (env : Env) : Go unit :=
  l ← get_defaultLogger;
  output l sInfo 0 (fmt.Sprint v) (enter (at_line 59) env).

Definition Infof (format : string) (v : list fmt.value) (env : Env) : Go unit :=
  l ← get_defaultLogger;
  output l sInfo 0 (Sprintf format v) (enter (at_line 64) env).

Definition Warning (v : list fmt.value) (env : Env) : Go unit :=
  l ← get_defaultLogger;
  output l sWarning 0 (fmt.Sprint v) (enter (at_line 69) env).

Definition Warningf (format : string) (v : list fmt.value) (env : Env) : Go unit :=
  l ← get_defaultLogger;
  output l sWarning 0 (Sprintf format v) (enter (at_line 74) env).

Definition Error (v : list fmt.value) (env : Env) : Go unit :=
  l ← get_defaultLogger;
  output l sError 0 (fmt.Sprint v) (enter (at_line 79) env).

Definition Errorf (format : string) (v : list fmt.value) (env : Env) : Go unit :=
  l ← get_defaultLogger;
  output l sError 0 (Sprintf format v) (enter (at_line 84) env).

(** the body of the loop in [Close] *)
Definition close_one (c : Handle) : Go unit :=
  err ← sink_Close c;
  match err with
  | Some e =>
      v ← show c;
      Fprintf Stderr ("Failed to close log %v: %v" +:+ nl) [v; fmt.VOther e] ;;
      mret tt
  | None => mret tt
  end.

Definition Close (l : option Logger) : Go unit :=
  Lock ;;
  defer Unlock (
    l' ← deref l;
    for_range (closers l') close_one).

Definition Fatal (v : list fmt.value) (env : Env) : Go unit :=
  l ← get_defaultLogger;
  output l sFatal 0 (fmt.Sprint v) (enter (at_line 89) env) ;;
  l ← get_defaultLogger;
  Close l ;;
  os_Exit 1.

Definition Fatalf (format : string) (v : list fmt.value) (env : Env) : Go unit :=
  l ← get_defaultLogger;
  output l sFatal 0 (Sprintf format v) (enter (at_line 96) env) ;;
  l ← get_defaultLogger;
  Close l ;;
  os_Exit 1.

(** The composite literal names the four loggers only; [closers] and
    [initialized] get their zero values. *)
Definition Init (infoHandle warningHandle errorHandle fatalHandle : Handle)
    : Go unit :=
  fun w =>
    (Ret tt,
     set_defaultLogger
       (Some {| infoLog := log.New infoHandle "INFO: " flags;
                warningLog := log.New warningHandle "WARNING: " flags;
                errorLog := log.New errorHandle "ERROR: " flags;
                fatalLog := log.New fatalHandle "FATAL: " flags;
                closers := [];
                initialized := false |}) w).

Definition FileForSaving (fileName : string) (env : Env) : Go Handle :=
  r ← os_OpenFile fileName (Z.lor O_CREATE (Z.lor O_WRONLY O_APPEND))
                  0x1b6 (* 0666 *) env;
  match r with
  | inr err =>
      log_Fatalln [fmt.VString "Failed to open log file"; fmt.VOther "<nil>";
                   fmt.VString ":"; fmt.VOther err]
                  (enter (at_line 129) env)
  | inl file => mret file
  end.

End Package.

(** ** The calls of the public interface, as data *)

Inductive Call :=
| CInfo (v : list fmt.value)
| CInfof (format : string) (v : list fmt.value)
| CWarning (v : list fmt.value)
| CWarningf (format : string) (v : list fmt.value)
| CError (v : list fmt.value)
| CErrorf (format : string) (v : list fmt.value)
| CFatal (v : list fmt.value)
| CFatalf (format : string) (v : list fmt.value).

Definition call_severity (c : Call) : severity :=
  match c with
  | CInfo _ | CInfof _ _ => sInfo
  | CWarning _ | CWarningf _ _ => sWarning
  | CError _ | CErrorf _ _ => sError
  | CFatal _ | CFatalf _ _ => sFatal
  end.

Definition is_fatal (c : Call) : bool :=
  match c with CFatal _ | CFatalf _ _ => true | _ => false end.

(** the line of [logger.go] a call reaches [output] from *)
Definition call_line (c : Call) : Z :=
  match c with
  | CInfo _ => 59 | CInfof _ _ => 64
  | CWarning _ => 69 | CWarningf _ _ => 74
  | CError _ => 79 | CErrorf _ _ => 84
  | CFatal _ => 89 | CFatalf _ _ => 96
  end.

Section Calls.

Variable Sprintf : string -> list fmt.value -> string.

(** the text a call hands to [output] *)
Definition call_text (c : Call) : string :=
  match c with
  | CInfo v | CWarning v | CError v | CFatal v => fmt.Sprint v
  | CInfof f v | CWarningf f v | CErrorf f v | CFatalf f v => Sprintf f v
  end.

(** the text of a call if operands were joined with nothing between *)
Definition stated_text (c : Call) : string :=
  match c with
  | CInfo v | CWarning v | CError v | CFatal v =>
      String.concat "" (map fmt.printArg v)
  | CInfof f v | CWarningf f v | CErrorf f v | CFatalf f v => Sprintf f v
  end.

Definition run_call (c : Call) (env : Env) : Go unit :=
  match c with
  | CInfo v => Info v env
  | CInfof f v => Infof Sprintf f v env
  | CWarning v => Warning v env
  | CWarningf f v => Warningf Sprintf f v env
  | CError v => Error v env
  | CErrorf f v => Errorf Sprintf f v env
  | CFatal v => Fatal Sprintf v env
  | CFatalf f v => Fatalf Sprintf f v env
  end.

(** Every operation a client can ask of the package. *)
Inductive Op :=
| OLog (c : Call)
| OClose
| OInit (infoHandle warningHandle errorHandle fatalHandle : Handle)
| OFileForSaving (fileName : string)
| OReturn (err : option errorString).

Definition run_op (o : Op) (env : Env) : Go unit :=
  match o with
  | OLog c => run_call c env
  | OClose => l ← get_defaultLogger; Close Sprintf l
  | OInit a b c d => Init a b c d
  | OFileForSaving n => FileForSaving n env ;; mret tt
  | OReturn e => Return e env ;; mret tt
  end.

(** A client run: operations one after the other, each with what the
    environment supplies to it. *)
Fixpoint run_ops (p : list (Op * Env)) : Go unit :=
  match p with
  | [] => mret tt
  | (o, env) :: p' => run_op o env ;; run_ops p'
  end.

End Calls.

(** The world of a process that has not touched the package. *)
Definition fresh_world (s : gmap nat Sink) : World := mkWorld s [] false None.

(** the handles closed, in order, in a stretch of trace *)
Definition close_events (t : list Event) : list Handle :=
  omap (fun e => match e with EvClose h => Some h | _ => None end) t.

(** the sinks written to in a stretch of trace *)
Definition write_targets (t : list Event) : list Handle :=
  omap (fun e => match e with EvWrite h _ => Some h | _ => None end) t.

(** ** Vocabulary for the statements *)

(** the message of the panic in [output]'s default branch *)
Definition unrecognized (s : severity) : string :=
  fmt.Sprintln [fmt.VString "unrecognized severity: "; fmt.VInt s].

Definition severities : list severity := [sInfo; sWarning; sError; sFatal].

(** the [log.Logger] that [output] selects for a severity *)
Definition severity_log (l : Logger) (s : severity) : log.Logger :=
  if s =? sInfo then infoLog l
  else if s =? sWarning then warningLog l
  else if s =? sError then errorLog l
  else fatalLog l.

(** the line of [logger.go] where [output] calls [Output] for a severity *)
Definition output_line (s : severity) : Z :=
  if s =? sInfo then 45
  else if s =? sWarning then 47
  else if s =? sError then 49
  else 51.

(** what [output] writes for a severity: the entry as [Output] builds it
    three frames below the caller of the severity function *)
Definition output_entry (l : Logger) (s : severity) (depth : Z) (txt : string)
    (env : Env) : string :=
  log.entry (severity_log l s) (3 + depth) txt
            (enter (at_line (output_line s)) env).


(** ** Sample data for closed statements *)

Definition sample_clock : Civil := mkCivil 2024 3 7 9 5 1 0.
Definition sample_time : Time := mkTime sample_clock sample_clock.

(** a client calling from [main.go:42], the kernel refusing every open *)
Definition sample_env : Env :=
  mkEnv sample_time
        [mkFrame "/home/u/app/main.go" 42; mkFrame "/usr/go/runtime/proc.go" 250]
        (fun fs => "goroutine 1 [running]:")
        (fun _ _ _ => inr "open app.log: permission denied").

(** an open file with nothing written, whose Close succeeds *)
Definition sample_file (name : string) : Sink := mkSink name "" false None.

(** a process with one open log file at handle 10 and the standard error
    stream at handle 2, before any call into the package *)
Definition sample_world : World :=
  fresh_world (<[10%nat := sample_file "app.log"]>
               (<[Stderr := sample_file "/dev/stderr"]> ∅)).

(** a printf stand-in for closed statements: it returns the format *)
Definition sample_Sprintf (format : string) (a : list fmt.value) : string :=
  format.

(** a logger with two registered closers, as the package itself could
    build one; [Init] never does *)
Definition sample_logger : Logger :=
  mkLogger (log.New 10%nat "INFO: " flags) (log.New 10%nat "WARNING: " flags)
           (log.New 10%nat "ERROR: " flags) (log.New 10%nat "FATAL: " flags)
           [10%nat; 11%nat] false.

Definition sample_world_ready : World :=
  mkWorld (<[10%nat := sample_file "app.log"]>
           (<[11%nat := mkSink "audit.log" "" false (Some "disk full")]>
            (<[Stderr := sample_file "/dev/stderr"]> ∅)))
          [] false (Some sample_logger).

(** ** The [initialized] field *)

Definition with_initialized (b : bool) (l : Logger) : Logger :=
  mkLogger (infoLog l) (warningLog l) (errorLog l) (fatalLog l) (closers l) b.

Definition set_initialized (b : bool) (w : World) : World :=
  set_defaultLogger (with_initialized b <$> defaultLogger w) w.

(** the flag of the process-wide logger is not set *)
Definition flag_clear (w : World) : Prop :=
  forall l, defaultLogger w = Some l -> initialized l = false.

(** a computation that leaves the package variable [defaultLogger] alone *)
Definition keeps {A} (m : Go A) : Prop :=
  forall w, defaultLogger (snd (m w)) = defaultLogger w.

(** a computation that neither reads nor writes the flag: run with the
    flag overwritten, it does the same and leaves the overwritten flag *)
Definition blind {A} (m : Go A) : Prop :=
  forall b w, m (set_initialized b w) = (fst (m w), set_initialized b (snd (m w))).

(** two worlds that differ at most in the flag of the logger *)
Definition same_outside_flag (w1 w2 : World) : Prop :=
  sinks w1 = sinks w2
  /\ trace w1 = trace w2
  /\ logLock w1 = logLock w2
  /\ with_initialized false <$> defaultLogger w1
     = with_initialized false <$> defaultLogger w2.

(** ** The line format, as the interface description gives it *)

(** the severity name in capitals *)
Definition severity_name (s : severity) : string :=
  if s =? sInfo then "INFO"
  else if s =? sWarning then "WARNING"
  else if s =? sError then "ERROR"
  else "FATAL".

(** [<SEVERITY-PREFIX>: <YYYY/MM/DD> <HH:MM:SS> <source-file>:<line>: <message>\n]
    for a call from position [site] at local time [t]; the source file is
    named by its last path element, as [log] shortens it. *)
Definition spec_line (s : severity) (t : Civil) (site : Frame) (msg : string)
    : string :=
  severity_name s +:+ ": "
  +:+ dec 4 (year t) +:+ "/" +:+ dec 2 (month t) +:+ "/" +:+ dec 2 (day t)
  +:+ " "
  +:+ dec 2 (hour t) +:+ ":" +:+ dec 2 (minute t) +:+ ":" +:+ dec 2 (second t)
  +:+ " "
  +:+ log.shortfile (file site) +:+ ":" +:+ numeral (line site)
  +:+ ": " +:+ msg +:+ nl.

(** a calendar reading with a four-digit year *)
Definition valid_clock (t : Civil) : Prop :=
  0 <= year t <= 9999 /\ 1 <= month t <= 12 /\ 1 <= day t <= 31
  /\ 0 <= hour t <= 23 /\ 0 <= minute t <= 59 /\ 0 <= second t <= 59.

(** the writer [Init] binds to a severity *)
Definition handle_for (s : severity) (infoHandle warningHandle errorHandle
    fatalHandle : Handle) : Handle :=
  if s =? sInfo then infoHandle
  else if s =? sWarning then warningHandle
  else if s =? sError then errorHandle
  else fatalHandle.

(** a sink after it has received [data] *)
Definition received (data : string) (s : Sink) : Sink :=
  mkSink (sink_name s) (content s +:+ data) (closed s) (closeErr s).

(** The line property read literally: for every message, also one with
    line breaks in it, and with the operands of the plain forms joined
    with nothing between them. *)
Definition line_property_as_stated : Prop :=
  forall (Sprintf : string -> list fmt.value -> string) (c : Call) (env : Env)
         (w : World) (infoHandle warningHandle errorHandle fatalHandle : Handle)
         (site : Frame) (rest : list Frame) (snk : Sink),
    logLock w = false ->
    callers env = site :: rest ->
    valid_clock (local (now env)) ->
    0 <= line site < 2 ^ 63 ->
    count_nl (file site) = 0%nat ->
    sinks w !! handle_for (call_severity c) infoHandle warningHandle
                          errorHandle fatalHandle = Some snk ->
    closed snk = false ->
    let h := handle_for (call_severity c) infoHandle warningHandle
                        errorHandle fatalHandle in
    let L := spec_line (call_severity c) (local (now env)) site
                       (stated_text Sprintf c) in
    exists w',
      (Init infoHandle warningHandle errorHandle fatalHandle ;;
       run_call Sprintf c env) w
      = (if is_fatal c then Exit 1 else Ret tt, w')
      /\ sinks w' = <[h := received L snk]> (sinks w)
      /\ count_nl L = 1%nat.

(** a message of two lines *)
Definition two_lines : string := "a" +:+ nl +:+ "b".

(** ** Goroutines calling the package at the same time *)

(** What a goroutine asks of the package, one entry per critical section:
    [output] with the sink and entry it selects, [Close] with the closers
    it walks, and the exit that ends a fatal call. *)
Inductive Job :=
| JOutput (h : Handle) (entry : string)
| JClose (cs : list Handle)
| JExit.

(** Inside a critical section: the bytes of the running [Write] not yet in
    the sink, and the closers not yet visited. *)
Definition Section_state : Type := option (Handle * string) * list Handle.

Record Goroutine := mkGoroutine {
  pc : option Section_state;     (* [None]: outside [logLock] *)
  jobs : list Job                (* what it will ask next *)
}.

Record Process := mkProcess {
  world : World;
  pool : list Goroutine;
  hist : list (Handle * string); (* writes begun, in the order begun *)
  exited : bool
}.




(** all that was begun for sink [h], in order *)
Definition begun_for (h : Handle) (hs : list (Handle * string)) : string :=
  foldr (fun x acc => (if decide (x.1 = h) then x.2 else "") +:+ acc) "" hs.

Definition content_of (s : gmap nat Sink) (h : Handle) : string :=
  match s !! h with Some x => content x | None => "" end.

(** A [Write] refuses a closed or unknown sink before any byte moves. *)
Definition start_write (h : Handle) (data : string) (w : World)
    : option (Handle * string) :=
  match sinks w !! h with
  | Some s => if closed s then None else Some (h, data)
  | None => None
  end.

Section Goroutines.

Variable Sprintf : string -> list fmt.value -> string.

(** the critical sections of one call on logger [l] *)
Definition jobs_of_call (l : Logger) (c : Call) (env : Env) : list Job :=
  JOutput (log.out (severity_log l (call_severity c)))
          (output_entry l (call_severity c) 0 (call_text Sprintf c)
                        (enter (at_line (call_line c)) env))
  :: (if is_fatal c then [JClose (closers l); JExit] else []).

Definition set_goroutine (i : nat) (g : Goroutine) (st : Process) (w : World)
    (begun : list (Handle * string)) : Process :=
  mkProcess w (<[i := g]> (pool st)) (hist st ++ begun) (exited st).

Definition begun_list (t : option (Handle * string)) : list (Handle * string) :=
  match t with Some x => [x] | None => [] end.

(** One move of goroutine [i]; [None] when it cannot move (it waits for
    the mutex, has nothing left, or the process is gone).  A write moves
    one byte at a time. *)
Definition step (i : nat) (st : Process) : option Process :=
  if exited st then None else
  match pool st !! i with
  | None => None
  | Some g =>
      match pc g with
      | None =>
          match jobs g with
          | [] => None
          | JOutput h e :: js =>
              if logLock (world st) then None
              else
                let t := start_write h e (world st) in
                Some (set_goroutine i (mkGoroutine (Some (t, [])) js) st
                        (set_logLock true (world st)) (begun_list t))
          | JClose cs :: js =>
              if logLock (world st) then None
              else
                Some (set_goroutine i (mkGoroutine (Some (None, cs)) js) st
                        (set_logLock true (world st)) [])
          | JExit :: js =>
              Some (mkProcess (world st) (pool st) (hist st) true)
          end
      | Some (Some (h, String c r), cs) =>
          Some (set_goroutine i (mkGoroutine (Some (Some (h, r), cs)) (jobs g)) st
                  (snd (Write h (String c "") (world st))) [])
      | Some (Some (h, EmptyString), cs) =>
          Some (set_goroutine i (mkGoroutine (Some (None, cs)) (jobs g)) st
                  (world st) [])
      | Some (None, c :: cs) =>
          match sink_Close c (world st) with
          | (Ret (Some e), w1) =>
              let v := fmt.VOther (match sinks w1 !! c with
                                   | Some s => sink_name s
                                   | None => "<nil>"
                                   end) in
              let t := start_write Stderr
                         (Sprintf ("Failed to close log %v: %v" +:+ nl)
                                  [v; fmt.VOther e]) w1 in
              Some (set_goroutine i (mkGoroutine (Some (t, cs)) (jobs g)) st
                      w1 (begun_list t))
          | (_, w1) =>
              Some (set_goroutine i (mkGoroutine (Some (None, cs)) (jobs g)) st
                      w1 [])
          end
      | Some (None, []) =>
          Some (set_goroutine i (mkGoroutine None (jobs g)) st
                  (Unlock (world st)) [])
      end
  end.

(** A schedule names the goroutine to move next; a goroutine that cannot
    move loses its turn. *)
Fixpoint run (sched : list nat) (st : Process) : Process :=
  match sched with
  | [] => st
  | i :: sched' =>
      match step i st with
      | Some st' => run sched' st'
      | None => run sched' st
      end
  end.

(** the process before any goroutine has moved *)
Definition spawn (w : World) (progs : list (list Job)) : Process :=
  mkProcess w (map (mkGoroutine None) progs) [] false.


End Goroutines.

(** ** Vocabulary for further properties *)

(** a closer that is open and whose [Close] succeeds *)
Definition healthy (w : World) (c : Handle) : Prop :=
  exists s, sinks w !! c = Some s /\ closed s = false /\ closeErr s = None.

(** a sink after its [Close] *)
Definition closed_copy (s : Sink) : Sink :=
  mkSink (sink_name s) (content s) true (closeErr s).

(** the sample process after [Init] with the one file for every severity *)
Definition sample_world_logging : World :=
  snd (Init 10%nat 10%nat 10%nat 10%nat sample_world).

(** everything of a line before the message *)
Definition line_header (s : severity) (t : Civil) (site : Frame) : string :=
  severity_name s +:+ ": "
  +:+ dec 4 (year t) +:+ "/" +:+ dec 2 (month t) +:+ "/" +:+ dec 2 (day t)
  +:+ " "
  +:+ dec 2 (hour t) +:+ ":" +:+ dec 2 (minute t) +:+ ":" +:+ dec 2 (second t)
  +:+ " "
  +:+ log.shortfile (file site) +:+ ":" +:+ numeral (line site) +:+ ": ".

Definition ends_with_LF (s : string) : bool :=
  bool_decide (last_byte s = Some LF).

(** the newline [Output] adds to a text *)
Definition closing_nl (txt : string) : string :=
  if ends_with_LF txt then "" else nl.

(** severity calls as operations *)
Definition log_ops (cs : list (Call * Env)) : list (Op * Env) :=
  map (fun ce => (OLog ce.1, ce.2)) cs.

Section FurtherVocabulary.

Variable Sprintf : string -> list fmt.value -> string.

(** the sink a call on logger [l] writes to, and the entry it writes *)
Definition call_entry (l : Logger) (ce : Call * Env) : Handle * string :=
  (log.out (severity_log l (call_severity ce.1)),
   output_entry l (call_severity ce.1) 0 (call_text Sprintf ce.1)
                (enter (at_line (call_line ce.1)) ce.2)).

End FurtherVocabulary.


(** a computation that, started with the mutex free, never waits for it
    and leaves it free however it ends *)
Definition frees {A} (m : Go A) : Prop :=
  forall w, logLock w = false ->
            logLock (snd (m w)) = false /\ fst (m w) <> Blocked.

(** * Properties *)

Ltac go_unfold :=
  unfold mbind, mret, Go_bind, Go_ret, defer, deref, panic, Lock, Unlock,
    get_defaultLogger, os_Exit in *.

(** ** Sink calls and [output] *)

Lemma Write_returns h d w :
  exists e w',
    Write h d w = (Ret e, w')
    /\ trace w' = trace w ++ [EvWrite h d]
    /\ logLock w' = logLock w
    /\ defaultLogger w' = defaultLogger w.
Proof.
  unfold Write. destruct (sinks w !! h) as [s|]; [destruct (closed s)|];
    eexists _, _; repeat split.
Qed.

Lemma sink_Close_returns h w :
  exists e w',
    sink_Close h w = (Ret e, w')
    /\ trace w' = trace w ++ [EvClose h]
    /\ logLock w' = logLock w
    /\ defaultLogger w' = defaultLogger w.
Proof.
  unfold sink_Close. destruct (sinks w !! h) as [s|]; [destruct (closed s)|];
    eexists _, _; repeat split.
Qed.

Lemma severities_cases s :
  In s severities -> s = sInfo \/ s = sWarning \/ s = sError \/ s = sFatal.
Proof. unfold severities. simpl. intuition. Qed.

Lemma output_known l s depth txt env w :
  logLock w = false -> In s severities ->
  output (Some l) s depth txt env w
  = (Ret tt,
     set_logLock false
       (snd (Write (log.out (severity_log l s))
                   (output_entry l s depth txt env) (set_logLock true w)))).
Proof.
  intros Hl Hs. unfold output. go_unfold. rewrite Hl.
  apply severities_cases in Hs as [-> | [-> | [-> | ->]]]; cbn [Z.eqb sInfo sWarning sError sFatal Pos.eqb];
    unfold log_Output, output_entry, severity_log, output_line; cbn [Z.eqb sInfo sWarning sError sFatal Pos.eqb];
    cbn -[Write log.entry];
    match goal with |- context [Write ?h ?d ?w] =>
      destruct (Write_returns h d w) as [e [w1 [-> _]]] end; reflexivity.
Qed.

Lemma output_nil s depth txt env w :
  logLock w = false -> In s severities ->
  output None s depth txt env w = (Panic nilDeref, w).
Proof.
  intros Hl Hs. unfold output. go_unfold. rewrite Hl.
  apply severities_cases in Hs as [-> | [-> | [-> | ->]]]; cbn;
    destruct w; cbn in *; subst; reflexivity.
Qed.

Lemma output_unknown l s depth txt env w :
  ~ In s severities -> logLock w = false ->
  output l s depth txt env w = (Panic (unrecognized s), w).
Proof.
  intros Hs Hl. unfold severities in Hs. simpl in Hs.
  unfold output. go_unfold. rewrite Hl.
  assert ((s =? sInfo) = false) as -> by (apply Z.eqb_neq; intros ->; apply Hs; tauto).
  assert ((s =? sWarning) = false) as -> by (apply Z.eqb_neq; intros ->; apply Hs; tauto).
  assert ((s =? sError) = false) as -> by (apply Z.eqb_neq; intros ->; apply Hs; tauto).
  assert ((s =? sFatal) = false) as -> by (apply Z.eqb_neq; intros ->; apply Hs; tauto).
  cbn. destruct w; cbn in *. subst. reflexivity.
Qed.

Lemma output_blocked l s depth txt env w :
  logLock w = true -> output l s depth txt env w = (Blocked, w).
Proof. intros Hl. unfold output. go_unfold. rewrite Hl. reflexivity. Qed.

Lemma nilDeref_not_unrecognized s : nilDeref <> unrecognized s.
Proof. unfold nilDeref, unrecognized. cbn. discriminate. Qed.

(** ** Closing *)

Section CloseFacts.

Variable Sprintf : string -> list fmt.value -> string.

(** One turn of the loop: the closer is asked to close, a failure costs
    one write to the diagnostic stream, and the turn returns. *)
Lemma close_one_returns c w :
  exists w' rest,
    close_one Sprintf c w = (Ret tt, w')
    /\ trace w' = trace w ++ EvClose c :: rest
    /\ close_events rest = []
    /\ Forall (fun h => h = Stderr) (write_targets rest)
    /\ logLock w' = logLock w
    /\ defaultLogger w' = defaultLogger w.
Proof.
  unfold close_one. go_unfold.
  destruct (sink_Close_returns c w) as (e & w1 & -> & Ht & Hl & Hd).
  destruct e as [e|].
  - unfold show, Fprintf.
    match goal with |- context [Write ?h ?d ?w] =>
      destruct (Write_returns h d w) as (e' & w2 & -> & Ht2 & Hl2 & Hd2) end.
    eexists w2, [_]. rewrite Ht2, Ht, <- app_assoc.
    repeat split; [ | congruence | congruence].
    cbn. by constructor.
  - exists w1, []. rewrite Ht. repeat split; [constructor| |]; done.
Qed.

(** What one turn adds to the trace: the close, and after a failure the
    write of the report to the diagnostic stream. *)
Lemma close_one_reports c w :
  trace (snd (close_one Sprintf c w))
  = trace w
    ++ EvClose c
       :: match sink_Close c w with
          | (Ret (Some e), w1) =>
              [EvWrite Stderr
                 (Sprintf ("Failed to close log %v: %v" +:+ nl)
                    [fmt.VOther (match sinks w1 !! c with
                                 | Some s => sink_name s
                                 | None => "<nil>"
                                 end);
                     fmt.VOther e])]
          | _ => []
          end.
Proof.
  unfold close_one. go_unfold.
  destruct (sink_Close_returns c w) as (e & w1 & -> & Ht & _).
  destruct e as [e|]; cbn [snd]; [|by rewrite Ht].
  unfold show, Fprintf.
  match goal with |- context [Write ?h ?d ?w] =>
    destruct (Write_returns h d w) as (e' & w2 & -> & Ht2 & _) end.
  cbn [snd]. by rewrite Ht2, Ht, <- app_assoc.
Qed.

(** The loop visits every closer once, in order, and always returns. *)
Lemma close_loop_returns cs w :
  exists w' rest,
    for_range cs (close_one Sprintf) w = (Ret tt, w')
    /\ trace w' = trace w ++ rest
    /\ close_events rest = cs
    /\ Forall (fun h => h = Stderr) (write_targets rest)
    /\ logLock w' = logLock w
    /\ defaultLogger w' = defaultLogger w.
Proof.
  revert w. induction cs as [|c cs IH]; intros w.
  - exists w, []. rewrite app_nil_r. repeat split. constructor.
  - cbn [for_range]. unfold mbind, Go_bind.
    destruct (close_one_returns c w) as (w1 & r1 & -> & Ht1 & Hc1 & Hw1 & Hl1 & Hd1).
    destruct (IH w1) as (w2 & r2 & -> & Ht2 & Hc2 & Hw2 & Hl2 & Hd2).
    exists w2, (EvClose c :: r1 ++ r2).
    split; [done|]. split.
    { rewrite Ht2, Ht1, <- app_assoc. done. }
    split.
    { unfold close_events in *. cbn. rewrite omap_app, Hc1, Hc2. done. }
    split.
    { unfold write_targets in *. cbn. rewrite omap_app.
      apply Forall_app; done. }
    split; congruence.
Qed.

(** [Close] on a logger: every registered closer is asked to close, in
    the order of the list; failures are written to the diagnostic stream
    and the call returns with the mutex released. *)
Lemma Close_returns l w :
  logLock w = false ->
  exists w' rest,
    Close Sprintf (Some l) w = (Ret tt, w')
    /\ trace w' = trace w ++ rest
    /\ close_events rest = closers l
    /\ Forall (fun h => h = Stderr) (write_targets rest)
    /\ logLock w' = false
    /\ defaultLogger w' = defaultLogger w.
Proof.
  intros Hl. unfold Close. go_unfold. rewrite Hl. cbn.
  destruct (close_loop_returns (closers l) (set_logLock true w))
    as (w1 & rest & -> & Ht & Hc & Hw & Hl1 & Hd1).
  exists (set_logLock false w1), rest. repeat split; done.
Qed.

Lemma Close_nil w :
  logLock w = false -> Close Sprintf None w = (Panic nilDeref, w).
Proof.
  intros Hl. unfold Close. go_unfold. rewrite Hl.
  destruct w; cbn in *; subst; reflexivity.
Qed.

(** With no closer registered, [Close] changes nothing. *)
Lemma Close_no_closers l w :
  logLock w = false -> closers l = [] ->
  Close Sprintf (Some l) w = (Ret tt, w).
Proof.
  intros Hl Hc. unfold Close. go_unfold. rewrite Hl. cbn. rewrite Hc.
  destruct w; cbn in *; subst; reflexivity.
Qed.

End CloseFacts.

(** ** Before and after [Init] *)

Lemma Init_returns a b c d w :
  Init a b c d w
  = (Ret tt,
     set_defaultLogger
       (Some (mkLogger (log.New a "INFO: " flags) (log.New b "WARNING: " flags)
                       (log.New c "ERROR: " flags) (log.New d "FATAL: " flags)
                       [] false)) w).
Proof. reflexivity. Qed.

(** [Init] registers no closer, so the [Close] that follows returns with
    every sink as it was and nothing asked to close. *)
Lemma Init_then_Close Sprintf a b c d w :
  logLock w = false ->
  (Init a b c d ;; l ← get_defaultLogger; Close Sprintf l) w
  = (Ret tt, snd (Init a b c d w)).
Proof.
  intros Hl. unfold mbind at 1. unfold Go_bind at 1.
  rewrite Init_returns. unfold mbind, Go_bind, get_defaultLogger.
  cbn [defaultLogger set_defaultLogger snd].
  by rewrite Close_no_closers.
Qed.

(** C1: at the sample world, [Init] with the open file at handle 10 for all
    four severities followed by [Close] returns normally, yet asks no sink
    to close: the trace stays empty and the file is still open. *)
Theorem C1_Close_after_Init_closes_nothing :
  exists w',
    (Init 10%nat 10%nat 10%nat 10%nat ;;
     l ← get_defaultLogger; Close sample_Sprintf l) sample_world = (Ret tt, w')
    /\ trace w' = []
    /\ close_events (trace w') = []
    /\ closed <$> sinks w' !! 10%nat = Some false.
Proof. eexists. rewrite Init_then_Close by done. repeat split. Qed.

(** C9: with no [Init] before it, each of the eight severity functions
    panics on the nil logger and leaves the world as it was: nothing is
    written, nothing closed, the mutex is free again. *)
Theorem C9_call_before_Init_panics Sprintf (c : Call) (env : Env) (w : World) :
  defaultLogger w = None ->
  logLock w = false ->
  run_call Sprintf c env w = (Panic nilDeref, w).
Proof.
  intros Hd Hl.
  destruct c; cbn [run_call];
    unfold Info, Infof, Warning, Warningf, Error, Errorf, Fatal, Fatalf;
    unfold mbind at 1; unfold Go_bind at 1; unfold get_defaultLogger; rewrite Hd;
    try (unfold mbind at 1; unfold Go_bind at 1);
    rewrite output_nil; try done; unfold severities; simpl; tauto.
Qed.

(** [Fatal("boom")] in a process that never called [Init]. *)
Lemma C9_call_before_Init_panics_witness :
  defaultLogger sample_world = None
  /\ logLock sample_world = false
  /\ run_call sample_Sprintf (CFatal [fmt.VString "boom"]) sample_env sample_world
     = (Panic nilDeref, sample_world).
Proof.
  split; [reflexivity|]. split; [reflexivity|].
  apply (C9_call_before_Init_panics sample_Sprintf (CFatal [fmt.VString "boom"])
           sample_env sample_world); reflexivity.
Defined.

(** ** Fatal calls and exit codes *)

Lemma output_effect l s depth txt env w :
  logLock w = false -> In s severities ->
  exists w',
    output (Some l) s depth txt env w = (Ret tt, w')
    /\ trace w' = trace w
                  ++ [EvWrite (log.out (severity_log l s))
                              (output_entry l s depth txt env)]
    /\ logLock w' = false
    /\ defaultLogger w' = defaultLogger w.
Proof.
  intros Hl Hs. rewrite output_known by done.
  match goal with |- context [Write ?h ?d ?w] =>
    destruct (Write_returns h d w) as (e & w1 & -> & Ht & _ & Hd) end.
  eexists. split; [done|]. cbn. repeat split; done.
Qed.

Lemma sFatal_known : In sFatal severities.
Proof. unfold severities. simpl. tauto. Qed.

(** A fatal call on an initialized logger, step by step. *)
Lemma fatal_call_effect Sprintf (c : Call) (env : Env) (w : World) (l : Logger) :
  is_fatal c = true ->
  defaultLogger w = Some l ->
  logLock w = false ->
  exists w' rest,
    run_call Sprintf c env w = (Exit 1, w')
    /\ trace w'
       = trace w
         ++ EvWrite (log.out (fatalLog l))
                    (output_entry l sFatal 0 (call_text Sprintf c)
                                  (enter (at_line (call_line c)) env))
            :: rest
    /\ close_events rest = closers l
    /\ Forall (fun h => h = Stderr) (write_targets rest).
Proof.
  intros Hf Hd Hl.
  destruct c; try discriminate Hf; cbn [run_call call_text call_line];
    unfold Fatal, Fatalf;
    unfold mbind at 1; unfold Go_bind at 1; unfold get_defaultLogger at 1;
    rewrite Hd; unfold mbind at 1; unfold Go_bind at 1.
  all: match goal with |- context [output _ _ _ ?t ?e _] =>
         destruct (output_effect l sFatal 0 t e w Hl sFatal_known)
           as (w1 & -> & Ht1 & Hl1 & Hd1) end.
  all: unfold mbind at 1; unfold Go_bind at 1; unfold get_defaultLogger;
    rewrite Hd1, Hd; unfold mbind, Go_bind.
  all: destruct (Close_returns Sprintf l w1 Hl1)
         as (w2 & rest & -> & Ht2 & Hc2 & Hw2 & _ & _).
  all: exists w2, rest; unfold os_Exit; split; [done|];
    rewrite Ht2, Ht1, <- app_assoc; repeat split; done.
Qed.

(** No severity function that is a fatal one ever returns. *)
Lemma fatal_call_never_returns Sprintf (c : Call) (env : Env) (w : World) :
  is_fatal c = true ->
  fst (run_call Sprintf c env w) <> Ret tt.
Proof.
  intros Hf.
  destruct c; try discriminate Hf; cbn [run_call];
    unfold Fatal, Fatalf, os_Exit, mbind, Go_bind, get_defaultLogger.
  all: match goal with |- context [output ?l ?s ?d ?t ?e ?w] =>
         destruct (output l s d t e w) as [[[]| | |] w1] end; cbn; try discriminate.
  all: match goal with |- context [Close ?S ?l ?w] =>
         destruct (Close S l w) as [[[]| | |] w2] end; cbn; discriminate.
Qed.

Lemma output_never_exits l s depth txt env w code :
  fst (output l s depth txt env w) <> Exit code.
Proof.
  destruct (logLock w) eqn:Hl; [by rewrite output_blocked|].
  destruct (decide (In s severities)) as [Hs|Hs].
  - destruct l; [by rewrite output_known | by rewrite output_nil].
  - by rewrite output_unknown.
Qed.

Lemma Close_blocked Sprintf l w :
  logLock w = true -> Close Sprintf l w = (Blocked, w).
Proof. intros Hl. unfold Close. go_unfold. by rewrite Hl. Qed.

Lemma Close_never_exits Sprintf l w code :
  fst (Close Sprintf l w) <> Exit code.
Proof.
  destruct (logLock w) eqn:Hl; [by rewrite Close_blocked|].
  destruct l as [l|]; [|by rewrite Close_nil].
  destruct (Close_returns Sprintf l w Hl) as (w' & rest & -> & _). done.
Qed.

Lemma log_call_exit_code Sprintf (c : Call) env w code w' :
  run_call Sprintf c env w = (Exit code, w') -> code = 1.
Proof.
  destruct c; cbn [run_call];
    unfold Info, Infof, Warning, Warningf, Error, Errorf, Fatal, Fatalf;
    unfold mbind, Go_bind, get_defaultLogger, os_Exit.
  all: match goal with |- context [output ?l ?s ?d ?t ?e ?w] =>
         pose proof (output_never_exits l s d t e w) as Ho;
         destruct (output l s d t e w) as [[[]|c0| |] w1] end;
    cbn [fst] in Ho; try (by destruct (Ho c0)); try done.
  all: match goal with |- context [Close ?S ?l ?w] =>
         pose proof (Close_never_exits S l w) as Hc;
         destruct (Close S l w) as [[[]|c0| |] w2] end;
    cbn [fst] in Hc; try (by destruct (Hc c0)); try done.
  all: by intros [= <- _].
Qed.

(** Whatever the operation and the state, an exit has status 1. *)
Lemma op_exit_code Sprintf (o : Op) env w code w' :
  run_op Sprintf o env w = (Exit code, w') -> code = 1.
Proof.
  destruct o as [c| |a b c d|n|e]; cbn [run_op].
  - apply log_call_exit_code.
  - unfold mbind, Go_bind, get_defaultLogger.
    pose proof (Close_never_exits Sprintf (defaultLogger w) w code) as Hc.
    destruct (Close Sprintf (defaultLogger w) w) as [[] w2]; cbn in *; congruence.
  - rewrite Init_returns. done.
  - unfold FileForSaving, os_OpenFile, log_Fatalln, log_Output, os_Exit, mbind, Go_bind.
    destruct (sys_open env n _ _) as [f|err]; [done|].
    match goal with |- context [Write ?h ?d ?w] =>
      destruct (Write_returns h d w) as (e' & w2 & -> & _) end.
    by intros [= <- _].
  - destruct e; cbn; done.
Qed.

(** ** The [initialized] field *)

Section Flag.

Variable Sprintf : string -> list fmt.value -> string.

Lemma keeps_bind {A B} (m : Go A) (k : A -> Go B) :
  keeps m -> (forall a, keeps (k a)) -> keeps (m ≫= k).
Proof.
  intros Hm Hk w. unfold mbind, Go_bind. specialize (Hm w).
  destruct (m w) as [[a| | |] w1]; cbn in *; try done.
  by rewrite Hk.
Qed.

Lemma keeps_ret {A} (a : A) : keeps (mret a : Go A).
Proof. by intros w. Qed.

Lemma keeps_defer {A} (m : Go A) : keeps m -> keeps (defer Unlock m).
Proof.
  intros Hm w. unfold defer. specialize (Hm w).
  by destruct (m w) as [[a| | |] w1].
Qed.

Lemma keeps_Lock : keeps Lock.
Proof. intros w. unfold Lock. by destruct (logLock w). Qed.

Lemma keeps_Write h d : keeps (Write h d).
Proof. intros w. by destruct (Write_returns h d w) as (e & w' & -> & _ & _ & ?). Qed.

Lemma keeps_sink_Close h : keeps (sink_Close h).
Proof. intros w. by destruct (sink_Close_returns h w) as (e & w' & -> & _ & _ & ?). Qed.

Lemma keeps_deref {A} (p : option A) : keeps (deref p).
Proof. intros w. by destruct p. Qed.

Lemma keeps_for_range {A} (xs : list A) (body : A -> Go unit) :
  (forall x, keeps (body x)) -> keeps (for_range xs body).
Proof.
  intros Hb. induction xs as [|x xs IH]; cbn [for_range].
  - apply keeps_ret.
  - apply keeps_bind; [apply Hb | done].
Qed.

Lemma keeps_output l s depth txt env : keeps (output l s depth txt env).
Proof.
  unfold output, log_Output. apply keeps_bind; [apply keeps_Lock|intros _].
  apply keeps_defer.
  repeat case_match;
    repeat first [ apply keeps_bind; [|intros ?] | apply keeps_deref
                 | apply keeps_Write | apply keeps_ret | done ].
Qed.

Lemma keeps_close_one c : keeps (close_one Sprintf c).
Proof.
  unfold close_one, Fprintf.
  apply keeps_bind; [apply keeps_sink_Close|intros [e|]]; [|apply keeps_ret].
  apply keeps_bind; [done|intros v].
  apply keeps_bind; [apply keeps_Write|intros _]. apply keeps_ret.
Qed.

Lemma keeps_Close l : keeps (Close Sprintf l).
Proof.
  unfold Close. apply keeps_bind; [apply keeps_Lock|intros _].
  apply keeps_defer. apply keeps_bind; [apply keeps_deref|intros l'].
  apply keeps_for_range, keeps_close_one.
Qed.

Lemma keeps_get_then {A} (k : option Logger -> Go A) :
  (forall l, keeps (k l)) -> keeps (get_defaultLogger ≫= k).
Proof. intros Hk. apply keeps_bind; [done|done]. Qed.

Lemma keeps_run_call c env : keeps (run_call Sprintf c env).
Proof.
  destruct c; cbn [run_call];
    unfold Info, Infof, Warning, Warningf, Error, Errorf, Fatal, Fatalf;
    apply keeps_get_then; intros l; try apply keeps_output.
  all: apply keeps_bind; [apply keeps_output|intros _];
    apply keeps_get_then; intros l';
    apply keeps_bind; [apply keeps_Close|intros _]; done.
Qed.

(** Every operation but [Init] leaves [defaultLogger] as it found it. *)
Lemma op_keeps_logger (o : Op) env :
  (forall a b c d, o <> OInit a b c d) -> keeps (run_op Sprintf o env).
Proof.
  intros Hne. destruct o as [c| |a b c d|n|e]; cbn [run_op].
  - apply keeps_run_call.
  - apply keeps_get_then, keeps_Close.
  - by destruct (Hne a b c d).
  - apply keeps_bind; [|intros; apply keeps_ret].
    unfold FileForSaving, log_Fatalln, log_Output.
    apply keeps_bind; [|intros [h|err]]; [|apply keeps_ret|].
    + intros w. unfold os_OpenFile. by destruct (sys_open env n _ _).
    + apply keeps_bind; [apply keeps_Write|done].
  - apply keeps_bind; [|intros; apply keeps_ret].
    destruct e; intros w; done.
Qed.

Lemma op_flag_clear (o : Op) env w :
  flag_clear w -> flag_clear (snd (run_op Sprintf o env w)).
Proof.
  intros Hw. destruct o as [c0| |a b c d|n|e].
  3: { cbn [run_op]. rewrite Init_returns. intros l [= <-]. done. }
  all: unfold flag_clear; rewrite op_keeps_logger; done.
Qed.

Lemma ops_flag_clear (p : list (Op * Env)) w :
  flag_clear w -> flag_clear (snd (run_ops Sprintf p w)).
Proof.
  revert w. induction p as [|[o env] p IH]; intros w Hw; [done|].
  cbn [run_ops]. unfold mbind, Go_bind.
  pose proof (op_flag_clear o env w Hw) as Ho.
  destruct (run_op Sprintf o env w) as [[[]| | |] w1]; cbn in *; auto.
Qed.


Lemma blind_bind {A B} (m : Go A) (k : A -> Go B) :
  blind m -> (forall a, blind (k a)) -> blind (m ≫= k).
Proof.
  intros Hm Hk b w. unfold mbind, Go_bind. rewrite Hm.
  destruct (m w) as [[a| | |] w1]; cbn; try done. apply Hk.
Qed.

Lemma blind_ret {A} (a : A) : blind (mret a : Go A).
Proof. by intros b w. Qed.

Lemma blind_defer {A} (m : Go A) : blind m -> blind (defer Unlock m).
Proof.
  intros Hm b w. unfold defer. rewrite Hm.
  by destruct (m w) as [[a| | |] w1].
Qed.

Lemma blind_Lock : blind Lock.
Proof. intros b w. unfold Lock. cbn. by destruct (logLock w). Qed.

Lemma blind_Write h d : blind (Write h d).
Proof.
  intros b w. unfold Write. cbn.
  destruct (sinks w !! h) as [s|]; [destruct (closed s)|]; done.
Qed.

Lemma blind_sink_Close h : blind (sink_Close h).
Proof.
  intros b w. unfold sink_Close. cbn.
  destruct (sinks w !! h) as [s|]; [destruct (closed s)|]; done.
Qed.

Lemma blind_deref {A} (p : option A) : blind (deref p).
Proof. intros b w. by destruct p. Qed.

Lemma blind_for_range {A} (xs : list A) (body : A -> Go unit) :
  (forall x, blind (body x)) -> blind (for_range xs body).
Proof.
  intros Hb. induction xs as [|x xs IH]; cbn [for_range].
  - apply blind_ret.
  - apply blind_bind; [apply Hb | done].
Qed.

Lemma blind_output l s depth txt env : blind (output l s depth txt env).
Proof.
  unfold output, log_Output. apply blind_bind; [apply blind_Lock|intros _].
  apply blind_defer.
  repeat case_match;
    repeat first [ apply blind_bind; [|intros ?] | apply blind_deref
                 | apply blind_Write | apply blind_ret | done ].
Qed.

Lemma blind_close_one c : blind (close_one Sprintf c).
Proof.
  unfold close_one, Fprintf.
  apply blind_bind; [apply blind_sink_Close|intros [e|]]; [|apply blind_ret].
  apply blind_bind; [done|intros v].
  apply blind_bind; [apply blind_Write|intros _]. apply blind_ret.
Qed.

Lemma blind_Close l : blind (Close Sprintf l).
Proof.
  unfold Close. apply blind_bind; [apply blind_Lock|intros _].
  apply blind_defer. apply blind_bind; [apply blind_deref|intros l'].
  apply blind_for_range, blind_close_one.
Qed.

(** [output] and [Close] use a logger without looking at its flag. *)
Lemma output_ignores_flag b l s depth txt env :
  output (with_initialized b <$> l) s depth txt env = output l s depth txt env.
Proof. by destruct l. Qed.

Lemma Close_ignores_flag b l :
  Close Sprintf (with_initialized b <$> l) = Close Sprintf l.
Proof. by destruct l. Qed.

Lemma blind_get_then {A} (k : option Logger -> Go A) :
  (forall l, blind (k l)) ->
  (forall b l, k (with_initialized b <$> l) = k l) ->
  blind (get_defaultLogger ≫= k).
Proof.
  intros Hk Hi b w. unfold mbind, Go_bind, get_defaultLogger.
  cbn [defaultLogger set_initialized set_defaultLogger].
  rewrite Hi. apply Hk.
Qed.

Lemma blind_run_call c env : blind (run_call Sprintf c env).
Proof.
  destruct c; cbn [run_call];
    unfold Info, Infof, Warning, Warningf, Error, Errorf, Fatal, Fatalf;
    apply blind_get_then;
    try (intros; apply blind_output);
    try (intros; by rewrite output_ignores_flag).
  all: intros l; apply blind_bind; [apply blind_output|intros _];
    apply blind_get_then; [|intros; by rewrite Close_ignores_flag];
    intros l'; apply blind_bind; [apply blind_Close|intros _]; done.
Qed.

Lemma blind_op (o : Op) env :
  (forall a b c d, o <> OInit a b c d) -> blind (run_op Sprintf o env).
Proof.
  intros Hne. destruct o as [c| |a b c d|n|e]; cbn [run_op].
  - apply blind_run_call.
  - apply blind_get_then; [apply blind_Close|].
    intros; by rewrite Close_ignores_flag.
  - by destruct (Hne a b c d).
  - apply blind_bind; [|intros; apply blind_ret].
    unfold FileForSaving, log_Fatalln, log_Output.
    apply blind_bind; [|intros [h|err]]; [|apply blind_ret|].
    + intros b w. unfold os_OpenFile. cbn. by destruct (sys_open env n _ _).
    + apply blind_bind; [apply blind_Write|done].
  - apply blind_bind; [|intros; apply blind_ret].
    destruct e; intros b w; done.
Qed.

Lemma same_outside_flag_set b w : same_outside_flag (set_initialized b w) w.
Proof.
  unfold same_outside_flag. destruct w as [s t lk [l|]]; cbn; done.
Qed.

(** Overwriting the flag before an operation changes neither what the
    operation returns nor what it does to sinks, trace and mutex. *)
Lemma op_ignores_flag (o : Op) env w b :
  fst (run_op Sprintf o env (set_initialized b w)) = fst (run_op Sprintf o env w)
  /\ same_outside_flag (snd (run_op Sprintf o env (set_initialized b w)))
                       (snd (run_op Sprintf o env w)).
Proof.
  destruct o as [c0| |a b0 c d|n|e].
  3: { cbn [run_op]. rewrite !Init_returns. cbn. done. }
  all: rewrite blind_op by done; cbn [fst snd];
    split; [done|apply same_outside_flag_set].
Qed.

End Flag.

(** ** Strings *)

#[local] Arguments String.append !s1 s2 : simpl nomatch.

Lemma append_assoc (a b c : string) : (a +:+ b) +:+ c = a +:+ b +:+ c.
Proof. induction a as [|x a IH]; cbn [String.append]; congruence. Qed.

Lemma append_nil_r (a : string) : a +:+ "" = a.
Proof. induction a as [|x a IH]; cbn [String.append]; congruence. Qed.

Lemma count_nl_app (a b : string) :
  count_nl (a +:+ b) = (count_nl a + count_nl b)%nat.
Proof. induction a as [|x a IH]; cbn [String.append count_nl]; lia. Qed.

Lemma last_byte_app_nl (a : string) : last_byte (a +:+ nl) = Some LF.
Proof.
  induction a as [|x a IH]; [done|]. cbn [String.append last_byte].
  rewrite IH. by destruct (a +:+ nl) eqn:E; [destruct a|].
Qed.

Lemma last_byte_no_nl (s : string) :
  count_nl s = 0%nat -> last_byte s <> Some LF.
Proof.
  induction s as [|x s IH]; [done|]. cbn [count_nl last_byte].
  destruct (Ascii.eqb x LF) eqn:E; [lia|]. intros Hs.
  destruct s; [|apply IH; lia].
  intros [= ->]. by rewrite Ascii.eqb_refl in E.
Qed.

Lemma count_nl_substring (n m : nat) (s : string) :
  (count_nl (String.substring n m s) <= count_nl s)%nat.
Proof.
  revert n m. induction s as [|x s IH]; intros n m.
  - by destruct n, m.
  - destruct n as [|n]; cbn [String.substring].
    + destruct m as [|m]; cbn [count_nl]; [lia|].
      specialize (IH 0%nat m). lia.
    + cbn [count_nl]. specialize (IH n m). lia.
Qed.

Lemma count_nl_shortfile (f : string) :
  count_nl f = 0%nat -> count_nl (log.shortfile f) = 0%nat.
Proof.
  intros Hf. unfold log.shortfile.
  generalize (String.length f - 1)%nat as i.
  induction i as [|i IH]; cbn [log.shortfile_loop]; [done|].
  destruct (String.get (S i) f) as [c|]; [|done].
  destruct (Ascii.eqb c "/"); [|done].
  pose proof (count_nl_substring (S i + 1) (String.length f - (S i + 1)) f). lia.
Qed.

(** ** Decimal numbers *)

Lemma digit_decimal (d : Z) : 0 <= d <= 9 -> log.digit d = decimal_digit d.
Proof.
  intros Hd.
  assert (d = 0 \/ d = 1 \/ d = 2 \/ d = 3 \/ d = 4 \/ d = 5 \/ d = 6
          \/ d = 7 \/ d = 8 \/ d = 9) as Hc by lia.
  repeat destruct Hc as [-> | Hc]; try reflexivity. by subst.
Qed.

Lemma decimal_digit_not_LF (d : Z) : 0 <= d <= 9 -> Ascii.eqb (decimal_digit d) LF = false.
Proof.
  intros Hd.
  assert (d = 0 \/ d = 1 \/ d = 2 \/ d = 3 \/ d = 4 \/ d = 5 \/ d = 6
          \/ d = 7 \/ d = 8 \/ d = 9) as Hc by lia.
  repeat destruct Hc as [-> | Hc]; try reflexivity. by subst.
Qed.

Lemma count_nl_dec (k : nat) (n : Z) : count_nl (dec k n) = 0%nat.
Proof.
  revert n. induction k as [|k IH]; intros n; cbn [dec]; [done|].
  rewrite count_nl_app, IH. cbn.
  rewrite decimal_digit_not_LF; [done|].
  pose proof (Z.mod_pos_bound n 10). lia.
Qed.

Lemma count_nl_numeral_digits (fuel : nat) (n : Z) :
  0 <= n -> count_nl (numeral_digits fuel n) = 0%nat.
Proof.
  revert n. induction fuel as [|fuel IH]; intros n Hn; cbn [numeral_digits]; [done|].
  destruct (n <? 10) eqn:E.
  - apply Z.ltb_lt in E. cbn. rewrite decimal_digit_not_LF; [done|lia].
  - rewrite count_nl_app, IH by (apply Z.div_pos; lia). cbn.
    rewrite decimal_digit_not_LF; [done|].
    pose proof (Z.mod_pos_bound n 10). lia.
Qed.

(** [itoa] with a width pads to that width. *)
Lemma itoa_loop_dec (k room : nat) (n : Z) (b : string) :
  (1 <= k <= room)%nat -> 0 <= n < 10 ^ Z.of_nat k ->
  log.itoa_loop room n (Z.of_nat k) b = dec k n +:+ b.
Proof.
  revert room n b. induction k as [|k IH]; intros room n b Hk Hn; [lia|].
  destruct room as [|room]; [lia|]. cbn [log.itoa_loop dec].
  destruct k as [|k].
  - replace (10 ^ Z.of_nat 1) with 10 in Hn by reflexivity.
    assert ((10 <=? n) = false) as -> by lia.
    replace (1 <? Z.of_nat 1) with false by reflexivity.
    cbn [orb dec String.append].
    replace (n mod 10) with n by (symmetry; apply Z.mod_small; lia).
    by rewrite digit_decimal by lia.
  - assert ((1 <? Z.of_nat (S (S k))) = true) as -> by lia.
    rewrite orb_true_r.
    rewrite Z.quot_div_nonneg by lia.
    replace (Z.of_nat (S (S k)) - 1) with (Z.of_nat (S k)) by lia.
    rewrite IH.
    + rewrite append_assoc. cbn [String.append].
      replace (n - n / 10 * 10) with (n mod 10) by (rewrite Z.mod_eq; lia).
      rewrite digit_decimal; [done|]. pose proof (Z.mod_pos_bound n 10). lia.
    + lia.
    + split; [apply Z.div_pos; lia|].
      apply Z.div_lt_upper_bound; [lia|].
      rewrite <- Z.pow_succ_r by lia. replace (Z.succ (Z.of_nat (S k))) with (Z.of_nat (S (S k))) by lia. lia.
Qed.

Lemma itoa_dec (buf : string) (k : nat) (n : Z) :
  (1 <= k <= 20)%nat -> 0 <= n < 10 ^ Z.of_nat k ->
  log.itoa buf n (Z.of_nat k) = buf +:+ dec k n.
Proof.
  intros Hk Hn. unfold log.itoa. rewrite itoa_loop_dec by done.
  by rewrite append_nil_r.
Qed.

(** The fuel of [numeral_digits] does not matter once it covers the digits. *)
Lemma numeral_digits_fuel (f1 f2 : nat) (n : Z) :
  (1 <= f1)%nat -> (1 <= f2)%nat ->
  0 <= n < 10 ^ Z.of_nat f1 -> n < 10 ^ Z.of_nat f2 ->
  numeral_digits f1 n = numeral_digits f2 n.
Proof.
  revert f2 n. induction f1 as [|f1 IH]; intros f2 n H1 H2 Hn1 Hn2; [lia|].
  destruct f2 as [|f2]; [lia|]. cbn [numeral_digits].
  destruct (n <? 10) eqn:E; [done|]. apply Z.ltb_ge in E.
  assert (forall f : nat, n < 10 ^ Z.of_nat (S f) -> (1 <= f)%nat /\ n / 10 < 10 ^ Z.of_nat f) as Hstep.
  { intros f Hf. split.
    - destruct f; [|lia]. replace (10 ^ Z.of_nat 1) with 10 in Hf by reflexivity. lia.
    - apply Z.div_lt_upper_bound; [lia|].
      rewrite <- Z.pow_succ_r by lia.
      replace (Z.succ (Z.of_nat f)) with (Z.of_nat (S f)) by lia. lia. }
  destruct (Hstep f1) as [? ?]; [lia|]. destruct (Hstep f2) as [? ?]; [lia|].
  rewrite (IH f2); [done|lia|lia| |lia].
  split; [apply Z.div_pos; lia|lia].
Qed.

Lemma numeral_unfold (n : Z) (f : nat) :
  (1 <= f)%nat -> 0 <= n < 10 ^ Z.of_nat f ->
  numeral n = numeral_digits f n.
Proof.
  intros Hf Hn. unfold numeral. apply numeral_digits_fuel; [lia|lia| |lia].
  split; [lia|].
  destruct (decide (n = 0)) as [->|Hne]; [by cbn|].
  pose proof (Z.log2_spec n ltac:(lia)) as [_ Hlt].
  replace (Z.of_nat (S (Z.to_nat (Z.log2 n)))) with (Z.succ (Z.log2 n))
    by (pose proof (Z.log2_nonneg n); lia).
  eapply Z.lt_le_trans; [exact Hlt|].
  apply Z.pow_le_mono_l. pose proof (Z.log2_nonneg n). lia.
Qed.

(** [itoa] with a negative width writes the plain numeral. *)
Lemma itoa_loop_numeral (room : nat) (n wid : Z) (b : string) :
  (1 <= room)%nat -> wid <= 1 -> 0 <= n < 10 ^ Z.of_nat room ->
  log.itoa_loop room n wid b = numeral_digits room n +:+ b.
Proof.
  revert n wid b. induction room as [|room IH]; intros n wid b Hr Hw Hn; [lia|].
  cbn [log.itoa_loop numeral_digits].
  assert ((1 <? wid) = false) as -> by lia. rewrite orb_false_r.
  destruct (10 <=? n) eqn:E.
  - apply Z.leb_le in E. assert ((n <? 10) = false) as -> by lia.
    rewrite Z.quot_div_nonneg by lia.
    assert ((1 <= room)%nat).
    { destruct room; [|lia]. replace (10 ^ Z.of_nat 1) with 10 in Hn by reflexivity. lia. }
    rewrite IH; [|done|lia|].
    + rewrite append_assoc. cbn [String.append].
      replace (n - n / 10 * 10) with (n mod 10) by (rewrite Z.mod_eq; lia).
      rewrite digit_decimal; [done|]. pose proof (Z.mod_pos_bound n 10). lia.
    + split; [apply Z.div_pos; lia|].
      apply Z.div_lt_upper_bound; [lia|].
      rewrite <- Z.pow_succ_r by lia.
      replace (Z.succ (Z.of_nat room)) with (Z.of_nat (S room)) by lia. lia.
  - apply Z.leb_gt in E. assert ((n <? 10) = true) as -> by lia.
    by rewrite digit_decimal by lia.
Qed.

Lemma itoa_numeral (buf : string) (n wid : Z) :
  wid <= 1 -> 0 <= n < 10 ^ 20 ->
  log.itoa buf n wid = buf +:+ numeral n.
Proof.
  intros Hw Hn. unfold log.itoa.
  rewrite itoa_loop_numeral by (try done; lia).
  by rewrite append_nil_r, (numeral_unfold n 20) by (try done; lia).
Qed.

(** ** The entry [Output] writes under the package's flags *)

Lemma flags_bits :
  log.has flags log.Lmsgprefix = false
  /\ log.has flags (Z.lor log.Ldate (Z.lor log.Ltime log.Lmicroseconds)) = true
  /\ log.has flags log.LUTC = false
  /\ log.has flags log.Ldate = true
  /\ log.has flags (Z.lor log.Ltime log.Lmicroseconds) = true
  /\ log.has flags log.Lmicroseconds = false
  /\ log.has flags (Z.lor log.Lshortfile log.Llongfile) = true
  /\ log.has flags log.Lshortfile = true.
Proof. repeat split. Qed.

(** The header under [Ldate|Ltime|Lshortfile]: prefix, date, time, short
    file name, line. *)
Lemma formatHeader_flags (t : Time) (prefix file : string) (line : Z) :
  valid_clock (local t) -> 0 <= line < 10 ^ 20 ->
  log.formatHeader "" t prefix flags file line
  = prefix
    +:+ dec 4 (year (local t)) +:+ "/" +:+ dec 2 (month (local t)) +:+ "/"
    +:+ dec 2 (day (local t)) +:+ " "
    +:+ dec 2 (hour (local t)) +:+ ":" +:+ dec 2 (minute (local t)) +:+ ":"
    +:+ dec 2 (second (local t)) +:+ " "
    +:+ log.shortfile file +:+ ":" +:+ numeral line +:+ ": ".
Proof.
  intros (Hy & Hmo & Hd & Hh & Hmi & Hs) Hl.
  destruct flags_bits as (F1 & F2 & F3 & F4 & F5 & F6 & F7 & F8).
  unfold log.formatHeader. rewrite F1, F2, F3, F4, F5, F6, F7, F8.
  cbn [negb]. unfold Time_Date, Time_Clock.
  change 4 with (Z.of_nat 4). change 2 with (Z.of_nat 2).
  rewrite !itoa_dec by (first [lia | cbn; lia]).
  rewrite itoa_numeral by lia.
  rewrite !append_assoc. reflexivity.
Qed.

Example shortfile_main :
  log.shortfile "/home/u/app/main.go" = "main.go".
Proof. reflexivity. Qed.

(** Three frames up from [Output] is the caller of the severity function. *)
Lemma Caller_three (f1 f2 site : Frame) (rest : list Frame) (env : Env) :
  callers env = site :: rest ->
  runtime_Caller 3 log.here (enter f1 (enter f2 env)) = Some site.
Proof. intros Hc. unfold runtime_Caller, enter. cbn. by rewrite Hc. Qed.

Lemma entry_spec_line (s : severity) (h : Handle) (f1 f2 site : Frame)
    (rest : list Frame) (txt : string) (env : Env) :
  callers env = site :: rest ->
  valid_clock (local (now env)) ->
  0 <= line site < 10 ^ 20 ->
  count_nl txt = 0%nat ->
  log.entry (log.New h (severity_name s +:+ ": ") flags) (3 + 0) txt
            (enter f1 (enter f2 env))
  = spec_line s (local (now env)) site txt.
Proof.
  intros Hc Ht Hl Hn. unfold log.entry.
  cbn [log.flag log.prefix].
  destruct flags_bits as (_ & _ & _ & _ & _ & _ & -> & _).
  change (3 + 0) with 3. rewrite (Caller_three f1 f2 site rest env Hc).
  change (now (enter f1 (enter f2 env))) with (now env).
  rewrite formatHeader_flags by done.
  assert (negb (bool_decide (last_byte txt = Some LF)) = true) as ->.
  { apply negb_true_iff, bool_decide_eq_false. by apply last_byte_no_nl. }
  rewrite orb_true_r. unfold spec_line.
  rewrite !append_assoc. reflexivity.
Qed.

Lemma count_nl_spec_line (s : severity) (t : Civil) (site : Frame) (txt : string) :
  In s severities ->
  0 <= line site ->
  count_nl (file site) = 0%nat ->
  count_nl txt = 0%nat ->
  count_nl (spec_line s t site txt) = 1%nat.
Proof.
  intros Hs Hl Hf Hn. unfold spec_line, numeral.
  rewrite !count_nl_app, !count_nl_dec, count_nl_shortfile,
    count_nl_numeral_digits, Hn by done.
  apply severities_cases in Hs as [-> | [-> | [-> | ->]]]; reflexivity.
Qed.

(** ** One call, one line *)

Lemma Write_open (h : Handle) (data : string) (w : World) (snk : Sink) :
  sinks w !! h = Some snk -> closed snk = false ->
  Write h data w
  = (Ret None, set_sinks (insert h (received data snk)) (emit (EvWrite h data) w)).
Proof.
  intros Hs Hc. unfold Write, received. by rewrite Hs, Hc.
Qed.

Lemma call_severity_known (c : Call) : In (call_severity c) severities.
Proof. unfold severities. destruct c; simpl; tauto. Qed.

(** the logger [Init] builds *)
Lemma Init_severity_log (a b c d : Handle) (s : severity) :
  In s severities ->
  severity_log (mkLogger (log.New a "INFO: " flags) (log.New b "WARNING: " flags)
                         (log.New c "ERROR: " flags) (log.New d "FATAL: " flags)
                         [] false) s
  = log.New (handle_for s a b c d) (severity_name s +:+ ": ") flags.
Proof.
  intros Hs. by apply severities_cases in Hs as [-> | [-> | [-> | ->]]].
Qed.

(** A severity call on a logger with no closers: [output], and for the
    fatal ones the exit after it. *)
Lemma run_call_output Sprintf (c : Call) (env : Env) (w : World) (l : Logger) :
  defaultLogger w = Some l -> logLock w = false -> closers l = [] ->
  run_call Sprintf c env w
  = (if is_fatal c then Exit 1 else Ret tt,
     snd (output (Some l) (call_severity c) 0 (call_text Sprintf c)
                 (enter (at_line (call_line c)) env) w)).
Proof.
  intros Hd Hl Hc.
  destruct (output_effect l (call_severity c) 0 (call_text Sprintf c)
              (enter (at_line (call_line c)) env) w Hl (call_severity_known c))
    as (w1 & Ho & _ & Hl1 & Hd1).
  rewrite Ho. cbn [snd].
  destruct c; cbn [run_call is_fatal call_severity call_text call_line] in *;
    unfold Info, Infof, Warning, Warningf, Error, Errorf, Fatal, Fatalf;
    unfold mbind at 1; unfold Go_bind at 1; unfold get_defaultLogger at 1;
    rewrite Hd; try exact Ho.
  all: unfold mbind at 1; unfold Go_bind at 1; rewrite Ho;
    unfold mbind at 1; unfold Go_bind at 1; unfold get_defaultLogger;
    rewrite Hd1, Hd; unfold mbind, Go_bind;
    by rewrite Close_no_closers.
Qed.

Lemma call_appends_line Sprintf (c : Call) (env : Env) (w : World)
    (infoHandle warningHandle errorHandle fatalHandle : Handle)
    (site : Frame) (rest : list Frame) (snk : Sink) :
  logLock w = false ->
  callers env = site :: rest ->
  valid_clock (local (now env)) ->
  0 <= line site < 2 ^ 63 ->
  count_nl (call_text Sprintf c) = 0%nat ->
  sinks w !! handle_for (call_severity c) infoHandle warningHandle
                        errorHandle fatalHandle = Some snk ->
  closed snk = false ->
  let h := handle_for (call_severity c) infoHandle warningHandle
                      errorHandle fatalHandle in
  let L := spec_line (call_severity c) (local (now env)) site
                     (call_text Sprintf c) in
  exists w',
    (Init infoHandle warningHandle errorHandle fatalHandle ;;
     run_call Sprintf c env) w
    = (if is_fatal c then Exit 1 else Ret tt, w')
    /\ sinks w' = <[h := received L snk]> (sinks w)
    /\ trace w' = trace w ++ [EvWrite h L]
    /\ logLock w' = false.
Proof.
  intros Hl Hc Ht Hln Hn Hs Hcl h L.
  unfold mbind at 1. unfold Go_bind at 1. rewrite Init_returns.
  erewrite run_call_output; [|reflexivity|exact Hl|reflexivity].
  rewrite output_known; [|exact Hl|apply call_severity_known].
  unfold output_entry. rewrite Init_severity_log by apply call_severity_known.
  cbn [log.out].
  rewrite entry_spec_line with (site := site) (rest := rest);
    [|done|done|lia|done].
  fold h. fold L.
  erewrite Write_open; [|exact Hs|exact Hcl].
  eexists. split; [reflexivity|]. cbn. done.
Qed.

(** Operands that are all strings are joined with nothing between. *)
Lemma doPrint_strings (prev : bool) (n : nat) (ss : list string) :
  fmt.doPrint prev n (map fmt.VString ss) = String.concat "" ss.
Proof.
  revert prev n. induction ss as [|s ss IH]; intros prev n; [done|].
  cbn [map fmt.doPrint fmt.isString fmt.printArg negb andb].
  rewrite andb_false_r, IH.
  destruct ss as [|s' ss]; cbn [String.concat String.append];
    [by rewrite append_nil_r|done].
Qed.

(** Two integers next to each other get a space. *)
Lemma Sprint_two_ints : fmt.Sprint [fmt.VInt 1; fmt.VInt 2] = "1 2".
Proof. reflexivity. Qed.

(** C2 (amended): after [Init], one call of a severity function whose
    formatted text has no line break writes once to the sink bound to that
    severity, appending exactly one line
    [<PREFIX>: <YYYY/MM/DD> <HH:MM:SS> <file>:<line>: <text>] and a newline,
    where the position is the caller's; the text of a plain form is
    [fmt.Sprint] of the operands (which joins string operands with nothing
    between) and that of an f form is [Sprintf] of format and operands. *)
Theorem C2_one_call_one_line Sprintf (c : Call) (env : Env) (w : World)
    (infoHandle warningHandle errorHandle fatalHandle : Handle)
    (site : Frame) (rest : list Frame) (snk : Sink) :
  logLock w = false ->
  callers env = site :: rest ->
  valid_clock (local (now env)) ->
  0 <= line site < 2 ^ 63 ->
  count_nl (file site) = 0%nat ->
  count_nl (call_text Sprintf c) = 0%nat ->
  sinks w !! handle_for (call_severity c) infoHandle warningHandle
                        errorHandle fatalHandle = Some snk ->
  closed snk = false ->
  let h := handle_for (call_severity c) infoHandle warningHandle
                      errorHandle fatalHandle in
  let L := spec_line (call_severity c) (local (now env)) site
                     (call_text Sprintf c) in
  (exists w',
      (Init infoHandle warningHandle errorHandle fatalHandle ;;
       run_call Sprintf c env) w
      = (if is_fatal c then Exit 1 else Ret tt, w')
      /\ sinks w' = <[h := received L snk]> (sinks w)
      /\ trace w' = trace w ++ [EvWrite h L])
  /\ count_nl L = 1%nat
  /\ last_byte L = Some LF
  /\ (forall ss, call_text Sprintf (CInfo (map fmt.VString ss)) = String.concat "" ss)
  /\ (forall f v, call_text Sprintf (CInfof f v) = Sprintf f v).
Proof.
  intros Hl Hc Ht Hln Hf Hn Hs Hcl h L.
  destruct (call_appends_line Sprintf c env w infoHandle warningHandle
              errorHandle fatalHandle site rest snk Hl Hc Ht Hln Hn Hs Hcl)
    as (w' & Hrun & Hsinks & Htrace & _).
  split; [by exists w'|].
  split; [apply count_nl_spec_line; [apply call_severity_known|lia|done|done]|].
  split.
  { unfold L, spec_line. rewrite <- !append_assoc. apply last_byte_app_nl. }
  split; [intros ss; apply doPrint_strings|done].
Qed.

(** [Warning("disk ", 93)] from [main.go:42] after [Init] with one file. *)
Lemma C2_one_call_one_line_witness :
  logLock sample_world = false
  /\ callers sample_env
     = [mkFrame "/home/u/app/main.go" 42; mkFrame "/usr/go/runtime/proc.go" 250]
  /\ valid_clock (local (now sample_env))
  /\ sinks sample_world !! 10%nat = Some (sample_file "app.log")
  /\ exists w',
      (Init 10%nat 10%nat 10%nat 10%nat ;;
       run_call sample_Sprintf (CWarning [fmt.VString "disk "; fmt.VInt 93])
                sample_env) sample_world
      = (Ret tt, w')
      /\ sinks w' !! 10%nat
         = Some (received ("WARNING: 2024/03/07 09:05:01 main.go:42: disk 93" +:+ nl)
                          (sample_file "app.log")).
Proof.
  split; [reflexivity|]. split; [reflexivity|].
  split; [unfold valid_clock; cbn; lia|]. split; [reflexivity|].
  destruct (C2_one_call_one_line sample_Sprintf
              (CWarning [fmt.VString "disk "; fmt.VInt 93]) sample_env
              sample_world 10%nat 10%nat 10%nat 10%nat
              (mkFrame "/home/u/app/main.go" 42)
              [mkFrame "/usr/go/runtime/proc.go" 250]
              (sample_file "app.log"))
    as [(w' & Hrun & Hsinks & _) _];
    [reflexivity|reflexivity|unfold valid_clock; cbn; lia|cbn; lia
    |reflexivity|reflexivity|reflexivity|reflexivity|].
  exists w'. split; [exact Hrun|].
  rewrite Hsinks. cbn [handle_for call_severity].
  rewrite lookup_insert_eq. reflexivity.
Defined.

(** C2 as stated fails: [Info("a\nb")] appends two lines, and
    [Info(1, 2)] appends a line whose text is [1 2], not [12]. *)
Lemma C2_counterexample :
  (exists w',
      (Init 10%nat 10%nat 10%nat 10%nat ;;
       run_call sample_Sprintf (CInfo [fmt.VString two_lines]) sample_env)
        sample_world = (Ret tt, w')
      /\ content <$> sinks w' !! 10%nat
         = Some ("INFO: 2024/03/07 09:05:01 main.go:42: a" +:+ nl +:+ "b" +:+ nl)
      /\ count_nl ("INFO: 2024/03/07 09:05:01 main.go:42: a" +:+ nl +:+ "b" +:+ nl)
         = 2%nat)
  /\ (exists w',
      (Init 10%nat 10%nat 10%nat 10%nat ;;
       run_call sample_Sprintf (CInfo [fmt.VInt 1; fmt.VInt 2]) sample_env)
        sample_world = (Ret tt, w')
      /\ content <$> sinks w' !! 10%nat
         = Some ("INFO: 2024/03/07 09:05:01 main.go:42: 1 2" +:+ nl)
      /\ stated_text sample_Sprintf (CInfo [fmt.VInt 1; fmt.VInt 2]) = "12")
  /\ ~ line_property_as_stated.
Proof.
  split; [eexists; split; [reflexivity|split; reflexivity]|].
  split; [eexists; split; [reflexivity|split; reflexivity]|].
  intros H.
  destruct (H sample_Sprintf (CInfo [fmt.VString two_lines]) sample_env
              sample_world 10%nat 10%nat 10%nat 10%nat
              (mkFrame "/home/u/app/main.go" 42)
              [mkFrame "/usr/go/runtime/proc.go" 250]
              (sample_file "app.log"))
    as (w' & _ & _ & Hcount);
    [reflexivity|reflexivity|unfold valid_clock; cbn; lia|cbn; lia
    |reflexivity|reflexivity|reflexivity|].
  vm_compute in Hcount. discriminate.
Qed.

(** ** Error wrapping *)

(** C5: the display message of [WrapError msg] is [msg] whatever the stack
    looks like; the dump of the stack at the call sits in its own field. *)
Theorem C5_WrapError_message (msg : string) (env : Env) :
  CustomError_Error (WrapError msg env) = msg
  /\ Error_of (WrapError msg env) = msg
  /\ StackTrace (WrapError msg env)
     = stack_dump env (at_line 149 :: callers env)
  /\ (forall env', Error_of (WrapError msg env') = Error_of (WrapError msg env)).
Proof. repeat split. Qed.

(** C6: wrapping a non-nil error [e] returns an error whose message is
    [e]'s message and whose stack trace is the dump of the frames at the
    wrapping call (the call site of [Return], then [Return], then
    [WrapError]), whatever trace [e] itself may carry. *)
Theorem C6_Return_message_and_trace `{error E} (e : E) (env : Env) (w : World) :
  exists r,
    Return (Some e) env w = (Ret r, w)
    /\ Error_of r = Error_of e
    /\ StackTrace (embedded r)
       = stack_dump env (at_line 149 :: at_line 155 :: callers env).
Proof. eexists. repeat split. Qed.

(** Wrapping an already wrapped error keeps the message and replaces
    nothing in the old value: the new trace is the wrap site's. *)
Lemma Return_rewrap (old : ErrorStruct) (env : Env) (w : World) :
  exists r,
    Return (Some old) env w = (Ret r, w)
    /\ Error_of r = Message (embedded old)
    /\ StackTrace (embedded r)
       = stack_dump env (at_line 149 :: at_line 155 :: callers env).
Proof. eexists. repeat split. Qed.

Lemma Return_nil `{error E} (env : Env) (w : World) :
  Return (@None E) env w = (Panic nilDeref, w).
Proof. reflexivity. Qed.
(** ** Goroutines: the mutex serializes writes and closing *)









Lemma sink_Close_content (c : Handle) (w : World) (h : Handle) :
  content_of (sinks (snd (sink_Close c w))) h = content_of (sinks w) h.
Proof.
  unfold sink_Close, content_of.
  destruct (sinks w !! c) as [s|] eqn:Hs; [destruct (closed s)|]; cbn; try done.
  destruct (decide (c = h)) as [->|Hne].
  - by rewrite lookup_insert_eq, Hs.
  - by rewrite lookup_insert_ne.
Qed.

Section GoroutineFacts.

Variable Sprintf : string -> list fmt.value -> string.
Variable s0 : gmap nat Sink.




End GoroutineFacts.


(** *** A goroutine alone does what the sequential code does *)

Section Solo.

Variable Sprintf : string -> list fmt.value -> string.

(** Moving the bytes of an entry one by one appends the entry. *)
Lemma solo_bytes (e : string) (h : Handle) (cs : list Handle) (js : list Job)
    (w : World) (hs : list (Handle * string)) (s : Sink) :
  sinks w !! h = Some s -> closed s = false ->
  exists w',
    run Sprintf (replicate (String.length e) 0%nat)
        (mkProcess w [mkGoroutine (Some (Some (h, e), cs)) js] hs false)
    = mkProcess w' [mkGoroutine (Some (Some (h, ""), cs)) js] hs false
    /\ sinks w' = <[h := received e s]> (sinks w)
    /\ logLock w' = logLock w.
Proof.
  revert w s. induction e as [|c r IH]; intros w s Hs Hc.
  - exists w. cbn. split; [done|]. split; [|done].
    unfold received. rewrite append_nil_r. rewrite insert_id; [done|].
    rewrite Hs. by destruct s.
  - cbn [String.length replicate run step exited pool lookup list_lookup pc].
    unfold set_goroutine. cbn [pool hist exited jobs].
    change (<[0%nat := ?g]> [?g0]) with [g].
    rewrite (Write_open h _ w s Hs Hc). cbn [snd]. rewrite app_nil_r.
    edestruct (IH (set_sinks (insert h (received (String c "") s))
                             (emit (EvWrite h (String c "")) w))
                  (received (String c "") s)) as (w' & -> & Hsinks & Hl).
    { cbn. by rewrite lookup_insert_eq. }
    { done. }
    exists w'. split; [done|]. split; [|done].
    rewrite Hsinks. cbn. rewrite insert_insert_eq. f_equal.
    unfold received. cbn. by rewrite append_assoc.
Qed.

Lemma run_app (a b : list nat) (st : Process) :
  run Sprintf (a ++ b) st = run Sprintf b (run Sprintf a st).
Proof.
  revert st. induction a as [|i a IH]; intros st; [done|].
  cbn [app run]. by destruct (step Sprintf i st).
Qed.

Lemma run_finished (n : nat) (w : World) (hs : list (Handle * string)) :
  run Sprintf (replicate n 0%nat) (mkProcess w [mkGoroutine None []] hs false)
  = mkProcess w [mkGoroutine None []] hs false.
Proof. induction n as [|n IH]; [done|]. cbn [replicate run]. exact IH. Qed.

Lemma solo_acquire (h : Handle) (e : string) (w : World) :
  logLock w = false ->
  step Sprintf 0 (spawn w [[JOutput h e]])
  = Some (mkProcess (set_logLock true w)
                    [mkGoroutine (Some (start_write h e w, [])) []]
                    (begun_list (start_write h e w)) false).
Proof. intros Hl. unfold step, spawn. cbn. by rewrite Hl. Qed.

(** One [output] by a goroutine that runs alone leaves the sinks as the
    sequential [Write] of the whole entry does, and frees the mutex. *)
Lemma solo_output (h : Handle) (e : string) (w : World) :
  logLock w = false ->
  let st := run Sprintf (replicate (String.length e + 3) 0%nat)
                (spawn w [[JOutput h e]]) in
  sinks (world st) = sinks (snd (Write h e w))
  /\ logLock (world st) = false
  /\ pool st = [mkGoroutine None []].
Proof.
  intros Hl. cbn zeta.
  replace (String.length e + 3)%nat with (1 + (String.length e + 2))%nat by lia.
  rewrite replicate_add, run_app.
  change (replicate 1 0%nat) with [0%nat]. cbn [run].
  rewrite (solo_acquire h e w Hl).
  unfold start_write, Write.
  destruct (sinks w !! h) as [s|] eqn:Hs; [destruct (closed s) eqn:Hc|].
  - (* closed sink: nothing moves *)
    replace (String.length e + 2)%nat with (1 + (String.length e + 1))%nat by lia.
    rewrite replicate_add, run_app. change (replicate 1 0%nat) with [0%nat].
    cbn [run step exited pool lookup list_lookup pc begun_list].
    unfold set_goroutine. cbn [pool hist exited world jobs app].
    change (<[0%nat := ?g]> [?g0]) with [g].
    rewrite run_finished. cbn. done.
  - rewrite replicate_add, run_app.
    edestruct (solo_bytes e h [] [] (set_logLock true w) [(h, e)] s)
      as (w' & Hrun & Hsinks & Hl'); [done|done|].
    cbn [begun_list]. rewrite Hrun. cbn. rewrite Hsinks.
    unfold received. rewrite Hc. done.
  - replace (String.length e + 2)%nat with (1 + (String.length e + 1))%nat by lia.
    rewrite replicate_add, run_app. change (replicate 1 0%nat) with [0%nat].
    cbn [run step exited pool lookup list_lookup pc begun_list].
    unfold set_goroutine. cbn [pool hist exited world jobs app].
    change (<[0%nat := ?g]> [?g0]) with [g].
    rewrite run_finished. cbn. done.
Qed.

(** The same for a whole call that is not a fatal one, on an
    initialized logger. *)
Lemma solo_call (c : Call) (env : Env) (w : World) (l : Logger) :
  is_fatal c = false -> defaultLogger w = Some l -> logLock w = false ->
  exists n,
    sinks (world (run Sprintf (replicate n 0%nat)
                      (spawn w [jobs_of_call Sprintf l c env])))
    = sinks (snd (run_call Sprintf c env w)).
Proof.
  intros Hf Hd Hl. unfold jobs_of_call. rewrite Hf.
  eexists. rewrite (proj1 (solo_output _ _ w Hl)).
  assert (snd (run_call Sprintf c env w)
          = snd (output (Some l) (call_severity c) 0 (call_text Sprintf c)
                        (enter (at_line (call_line c)) env) w)) as ->.
  { destruct c; try discriminate Hf; cbn [run_call];
      unfold Info, Infof, Warning, Warningf, Error, Errorf;
      unfold mbind, Go_bind, get_defaultLogger; by rewrite Hd. }
  rewrite output_known by (try done; apply call_severity_known).
  cbn [snd]. unfold Write. cbn.
  destruct (sinks w !! _) as [s|]; [destruct (closed s)|]; done.
Qed.

End Solo.

(** ** The file helper *)

Lemma fresh_handle_unused (w : World) : sinks w !! fresh (dom (sinks w)) = None.
Proof. apply not_elem_of_dom, is_fresh. Qed.

(** C7: [FileForSaving] asks for one open of the path, write-only, in
    append mode, creating the file if needed, with permission bits 0666; it
    returns the handle of the file the kernel opened, and when the kernel
    refuses it writes the reason to the standard logger and exits with
    status 1 instead of returning. *)
Theorem C7_FileForSaving (fileName : string) (env : Env) (w : World) :
  let flag := Z.lor O_CREATE (Z.lor O_WRONLY O_APPEND) in
  let perm := 6 * 64 + 6 * 8 + 6 in
  (Z.land flag O_APPEND = O_APPEND
   /\ Z.land flag O_CREATE = O_CREATE
   /\ Z.land flag (Z.lor O_WRONLY O_RDWR) = O_WRONLY
   /\ Z.land flag O_TRUNC = 0
   /\ Z.land flag O_EXCL = 0)
  /\ match sys_open env fileName flag perm with
     | inl f =>
         exists h w',
           FileForSaving fileName env w = (Ret h, w')
           /\ sinks w !! h = None
           /\ sinks w' = <[h := f]> (sinks w)
           /\ trace w' = trace w ++ [EvOpen fileName flag perm]
     | inr err =>
         exists w',
           FileForSaving fileName env w = (Exit 1, w')
           /\ trace w'
              = trace w
                ++ [EvOpen fileName flag perm;
                    EvWrite Stderr
                      (log.entry log_std 2
                         (fmt.Sprintln [fmt.VString "Failed to open log file";
                                        fmt.VOther "<nil>"; fmt.VString ":";
                                        fmt.VOther err])
                         (enter (at_line 129) env))]
     end.
Proof.
  cbn zeta. split; [repeat split|].
  unfold FileForSaving, os_OpenFile, mbind, Go_bind.
  change (6 * 64 + 6 * 8 + 6) with 438.
  destruct (sys_open env fileName _ 438) as [f|err].
  - eexists _, _. split; [reflexivity|].
    split; [apply fresh_handle_unused|]. done.
  - unfold log_Fatalln, log_Output, os_Exit, mbind, Go_bind.
    match goal with |- context [Write ?h ?d ?w] =>
      destruct (Write_returns h d w) as (e' & w2 & -> & Ht & _) end.
    exists w2. split; [done|]. rewrite Ht. cbn. by rewrite <- app_assoc.
Qed.

(** ** Dispatch on the severity *)

Example unrecognized_seven :
  unrecognized 7 = "unrecognized severity:  7" +:+ nl.
Proof. reflexivity. Qed.


(** C8: for each of the four severity constants [output] never raises the
    unrecognized-severity panic, whatever the logger and the state; for any
    other value it panics with that message, with nothing written and the
    mutex released. *)
Theorem C8_dispatch :
  (forall l s depth txt env w,
      In s severities ->
      fst (output l s depth txt env w) <> Panic (unrecognized s))
  /\ (forall l s depth txt env w,
      ~ In s severities ->
      logLock w = false ->
      output l s depth txt env w = (Panic (unrecognized s), w)).
Proof.
  split.
  - intros l s depth txt env w Hs.
    destruct (logLock w) eqn:Hl.
    + rewrite output_blocked by done. discriminate.
    + destruct l as [l|].
      * rewrite output_known by done. discriminate.
      * rewrite output_nil by done.
        intros [=E]; by apply nilDeref_not_unrecognized in E.
  - intros. by apply output_unknown.
Qed.

Example output_severity_seven :
  output None 7 0 "x" sample_env sample_world
  = (Panic ("unrecognized severity:  7" +:+ nl), sample_world).
Proof. reflexivity. Qed.

(** ** Fatal calls *)

(** What [Fatal] and [Fatalf] do on any logger value: the entry goes to
    the sink of the fatal logger, then each handle in [closers] is asked to
    close, in order, with close failures written only to the standard
    error stream, and the call ends with exit status 1; whatever follows
    the call does not run, and no operation of the package exits with
    another status. *)
Lemma fatal_sequence_on_any_logger Sprintf (c : Call) (env : Env) (w : World)
    (l : Logger) :
  is_fatal c = true ->
  defaultLogger w = Some l ->
  logLock w = false ->
  (exists w' rest,
      run_call Sprintf c env w = (Exit 1, w')
      /\ trace w'
         = trace w
           ++ EvWrite (log.out (fatalLog l))
                      (output_entry l sFatal 0 (call_text Sprintf c)
                                    (enter (at_line (call_line c)) env))
              :: rest
      /\ close_events rest = closers l
      /\ Forall (fun h => h = Stderr) (write_targets rest))
  /\ (forall k : Go unit,
        (run_call Sprintf c env ;; k) w = run_call Sprintf c env w)
  /\ (forall o env0 w0 code w1,
        run_op Sprintf o env0 w0 = (Exit code, w1) -> code = 1).
Proof.
  intros Hf Hd Hl.
  destruct (fatal_call_effect Sprintf c env w l Hf Hd Hl)
    as (w' & rest & Hrun & Ht & Hc & Hw).
  split; [by exists w', rest|]. split.
  - intros k. unfold mbind, Go_bind. by rewrite Hrun.
  - intros o env0 w0 code w1. apply op_exit_code.
Qed.

(** C3: at the sample world, after [Init] with the open file at handle 10
    for all four severities, [Fatal("boom")] and [Fatalf("boom")] write
    their entry to that file and exit with status 1, yet ask no sink to
    close: the write is the only event and the file handed to [Init] is
    still open when the process ends. *)
Theorem C3_Fatal_after_Init_leaves_sinks_open :
  (exists w',
      (Init 10%nat 10%nat 10%nat 10%nat ;;
       run_call sample_Sprintf (CFatal [fmt.VString "boom"]) sample_env)
        sample_world = (Exit 1, w')
      /\ trace w'
         = [EvWrite 10%nat
              ("FATAL: 2024/03/07 09:05:01 main.go:42: boom" +:+ nl)]
      /\ close_events (trace w') = []
      /\ closed <$> sinks w' !! 10%nat = Some false)
  /\ (exists w',
        (Init 10%nat 10%nat 10%nat 10%nat ;;
         run_call sample_Sprintf (CFatalf "boom" []) sample_env)
          sample_world = (Exit 1, w')
        /\ trace w'
           = [EvWrite 10%nat
                ("FATAL: 2024/03/07 09:05:01 main.go:42: boom" +:+ nl)]
        /\ close_events (trace w') = []
        /\ closed <$> sinks w' !! 10%nat = Some false).
Proof. split; eexists; repeat split. Qed.

(** [Fatal("boom")] on a logger value with two closers, event by event:
    the entry, the two closes, and the report of the one that failed. *)
Example fatal_trace :
  exists w',
    run_call sample_Sprintf (CFatal [fmt.VString "boom"]) sample_env
             sample_world_ready = (Exit 1, w')
    /\ trace w'
       = [EvWrite 10%nat ("FATAL: 2024/03/07 09:05:01 main.go:42: boom" +:+ nl);
          EvClose 10%nat; EvClose 11%nat;
          EvWrite Stderr ("Failed to close log %v: %v" +:+ nl)]
    /\ closed <$> sinks w' !! 10%nat = Some true
    /\ closed <$> sinks w' !! 11%nat = Some true.
Proof. eexists. repeat split. Qed.

(** ** The flag *)

(** C10: [Init] leaves [initialized] false; after any run of operations
    from a process that had not touched the package the flag of the logger,
    if there is one, is still false; and overwriting the flag before an
    operation changes neither its outcome nor its effect on sinks, trace
    and mutex. *)
Theorem C10_initialized_never_set Sprintf :
  (forall a b c d w,
      initialized <$> defaultLogger (snd (Init a b c d w)) = Some false)
  /\ (forall (p : list (Op * Env)) (s : gmap nat Sink),
        flag_clear (snd (run_ops Sprintf p (fresh_world s))))
  /\ (forall (o : Op) (env : Env) (w : World) (b : bool),
        fst (run_op Sprintf o env (set_initialized b w))
        = fst (run_op Sprintf o env w)
        /\ same_outside_flag (snd (run_op Sprintf o env (set_initialized b w)))
                             (snd (run_op Sprintf o env w))).
Proof.
  split; [done|]. split.
  - intros p s. apply ops_flag_clear. intros l. discriminate.
  - intros. apply op_ignores_flag.
Qed.

(** ** Concurrent callers *)


(** Two goroutines writing to one file, moved in turns: the second waits
    until the first has released the mutex, and the file reads
    [AAAbbbCC]. *)
Example two_goroutines_take_turns :
  let st := run sample_Sprintf
                [0; 1; 0; 1; 0; 1; 0; 1; 0; 1; 0; 1; 1; 1; 1; 1; 1; 0; 0; 0;
                 0; 0; 0]%nat
                (spawn sample_world
                       [[JOutput 10%nat "AAA"; JOutput 10%nat "CC"];
                        [JOutput 10%nat "bbb"]]) in
  content_of (sinks (world st)) 10%nat = "AAAbbbCC"
  /\ hist st = [(10%nat, "AAA"); (10%nat, "bbb"); (10%nat, "CC")].
Proof. split; reflexivity. Qed.

(** * Further properties *)

(** ** [Close] on any logger *)

Section CloseMore.

Variable Sprintf : string -> list fmt.value -> string.

Lemma Write_content_other (h h' : Handle) (d : string) (w : World) :
  h' <> h ->
  sinks (snd (Write h d w)) !! h' = sinks w !! h'.
Proof.
  intros Hne. unfold Write.
  destruct (sinks w !! h) as [s|]; [destruct (closed s)|]; cbn; try done.
  by rewrite lookup_insert_ne.
Qed.

(** One turn leaves the bytes of every sink but the diagnostic stream. *)
Lemma close_one_content (c h : Handle) (w : World) :
  h <> Stderr ->
  content_of (sinks (snd (close_one Sprintf c w))) h = content_of (sinks w) h.
Proof.
  intros Hne. rewrite <- (sink_Close_content c w h).
  unfold close_one. go_unfold.
  destruct (sink_Close_returns c w) as (e & w1 & -> & _).
  destruct e as [e|]; cbn [snd]; [|done].
  unfold show, Fprintf.
  match goal with |- context [Write ?h0 ?d ?w0] =>
    pose proof (Write_content_other h0 h d w0 Hne) as Hw;
    destruct (Write_returns h0 d w0) as (e' & w2 & Hr & _) end.
  rewrite Hr in Hw |- *. cbn [snd] in *. unfold content_of. by rewrite Hw.
Qed.

Lemma close_loop_content (cs : list Handle) (h : Handle) (w : World) :
  h <> Stderr ->
  content_of (sinks (snd (for_range cs (close_one Sprintf) w))) h
  = content_of (sinks w) h.
Proof.
  intros Hne. revert w. induction cs as [|c cs IH]; intros w; [done|].
  cbn [for_range]. unfold mbind, Go_bind.
  pose proof (close_one_content c h w Hne) as Hc.
  destruct (close_one_returns Sprintf c w) as (w1 & r1 & Hr & _).
  rewrite Hr in Hc |- *. cbn [snd] in Hc. by rewrite IH.
Qed.

End CloseMore.

(** X1: with the mutex free, [Close] on a logger asks each of its closers
    to close, once each and in the order of the list, whether or not
    earlier ones failed; it writes to no sink but the standard error
    stream, leaves the bytes of every other sink and the process-wide
    logger as they were, and returns normally with the mutex free. *)
Theorem X1_Close_visits_every_closer Sprintf (l : Logger) (w : World) :
  logLock w = false ->
  exists w' rest,
    Close Sprintf (Some l) w = (Ret tt, w')
    /\ trace w' = trace w ++ rest
    /\ close_events rest = closers l
    /\ Forall (fun h => h = Stderr) (write_targets rest)
    /\ (forall h, h <> Stderr ->
          content_of (sinks w') h = content_of (sinks w) h)
    /\ logLock w' = false
    /\ defaultLogger w' = defaultLogger w.
Proof.
  intros Hl.
  destruct (Close_returns Sprintf l w Hl) as (w' & rest & Hr & Ht & Hc & Hw & Hl' & Hd).
  exists w', rest. repeat split; try done.
  intros h Hne.
  assert (w' = snd (Close Sprintf (Some l) w)) as -> by (by rewrite Hr).
  unfold Close. go_unfold. rewrite Hl. cbn.
  pose proof (close_loop_content Sprintf (closers l) h (set_logLock true w) Hne) as Hcc.
  destruct (close_loop_returns Sprintf (closers l) (set_logLock true w))
    as (w1 & r1 & Hr1 & _).
  rewrite Hr1 in Hcc |- *. cbn [snd] in *. exact Hcc.
Qed.

(** [Close] on the sample logger, whose second closer fails. *)
Lemma X1_Close_visits_every_closer_witness :
  logLock sample_world_ready = false
  /\ exists w' rest,
      Close sample_Sprintf (Some sample_logger) sample_world_ready = (Ret tt, w')
      /\ trace w' = trace sample_world_ready ++ rest
      /\ close_events rest = [10%nat; 11%nat].
Proof.
  split; [reflexivity|].
  destruct (X1_Close_visits_every_closer sample_Sprintf sample_logger
              sample_world_ready eq_refl)
    as (w' & rest & Hr & Ht & Hc & _).
  exists w', rest. split; [exact Hr|]. split; [exact Ht|exact Hc].
Defined.

Section CloseHealthy.

Variable Sprintf : string -> list fmt.value -> string.

Lemma close_one_healthy (c : Handle) (w : World) (s : Sink) :
  sinks w !! c = Some s -> closed s = false -> closeErr s = None ->
  close_one Sprintf c w
  = (Ret tt, set_sinks (insert c (closed_copy s)) (emit (EvClose c) w)).
Proof.
  intros Hs Hc He. unfold close_one, sink_Close. go_unfold.
  rewrite Hs, Hc. unfold closed_copy. by rewrite He.
Qed.

Lemma close_loop_healthy (cs : list Handle) (w : World) :
  NoDup cs -> (forall c, c ∈ cs -> healthy w c) ->
  exists w',
    for_range cs (close_one Sprintf) w = (Ret tt, w')
    /\ trace w' = trace w ++ map EvClose cs
    /\ (forall c, c ∈ cs ->
          exists s, sinks w !! c = Some s /\ sinks w' !! c = Some (closed_copy s))
    /\ (forall h, h ∉ cs -> sinks w' !! h = sinks w !! h)
    /\ logLock w' = logLock w.
Proof.
  revert w. induction cs as [|c cs IH]; intros w Hnd Hh.
  - exists w. rewrite app_nil_r. repeat split; try done.
    intros c Hc. by apply elem_of_nil in Hc.
  - apply NoDup_cons in Hnd as [Hc Hnd].
    destruct (Hh c) as (s & Hs & Hcl & He); [by left|].
    cbn [for_range]. unfold mbind, Go_bind.
    rewrite (close_one_healthy c w s Hs Hcl He).
    destruct (IH (set_sinks (insert c (closed_copy s)) (emit (EvClose c) w)) Hnd)
      as (w' & Hr & Ht & Hin & Hout & Hl).
    { intros c' Hc'. destruct (Hh c') as (s' & Hs' & ?); [by right|].
      exists s'. split; [|done]. cbn.
      rewrite lookup_insert_ne; [done|]. by intros ->. }
    exists w'. split; [done|]. split.
    { rewrite Ht. cbn. by rewrite <- app_assoc. }
    split; [|split].
    + intros c' Hc'. apply elem_of_cons in Hc' as [->|Hc'].
      * exists s. split; [done|]. rewrite Hout by done. cbn.
        by rewrite lookup_insert_eq.
      * destruct (Hin c' Hc') as (s' & Hs' & Hs''). exists s'. split; [|done].
        cbn in Hs'. rewrite lookup_insert_ne in Hs'; [done|]. by intros ->.
    + intros h Hh'. apply not_elem_of_cons in Hh' as [Hne Hh'].
      rewrite Hout by done. cbn. by rewrite lookup_insert_ne.
    + by rewrite Hl.
Qed.

End CloseHealthy.

(** X2: when the closers of a logger are distinct, open and close without
    error, [Close] closes each of them, in order and with nothing written
    anywhere; every closer ends closed with its bytes kept, every other
    sink is untouched. *)
Theorem X2_Close_healthy_closers_silent Sprintf (l : Logger) (w : World) :
  logLock w = false ->
  NoDup (closers l) ->
  (forall c, c ∈ closers l -> healthy w c) ->
  exists w',
    Close Sprintf (Some l) w = (Ret tt, w')
    /\ trace w' = trace w ++ map EvClose (closers l)
    /\ (forall c, c ∈ closers l ->
          exists s, sinks w !! c = Some s /\ sinks w' !! c = Some (closed_copy s))
    /\ (forall h, h ∉ closers l -> sinks w' !! h = sinks w !! h).
Proof.
  intros Hl Hnd Hh. unfold Close. go_unfold. rewrite Hl. cbn.
  destruct (close_loop_healthy Sprintf (closers l) (set_logLock true w) Hnd)
    as (w' & -> & Ht & Hin & Hout & _); [done|].
  exists (set_logLock false w'). repeat split; done.
Qed.

(** a logger over two files that close cleanly *)
Lemma X2_Close_healthy_closers_silent_witness :
  let l := mkLogger (log.New 10%nat "INFO: " flags) (log.New 10%nat "WARNING: " flags)
                    (log.New 2%nat "ERROR: " flags) (log.New 2%nat "FATAL: " flags)
                    [10%nat; 2%nat] false in
  logLock sample_world = false
  /\ NoDup (closers l)
  /\ exists w',
      Close sample_Sprintf (Some l) sample_world = (Ret tt, w')
      /\ trace w' = [EvClose 10%nat; EvClose 2%nat].
Proof.
  cbn zeta. split; [reflexivity|].
  assert (NoDup [10%nat; 2%nat]) as Hnd.
  { apply NoDup_cons. split.
    - intros H. apply list_elem_of_singleton in H. discriminate H.
    - apply NoDup_singleton. }
  split; [exact Hnd|].
  destruct (X2_Close_healthy_closers_silent sample_Sprintf
              (mkLogger (log.New 10%nat "INFO: " flags) (log.New 10%nat "WARNING: " flags)
                        (log.New 2%nat "ERROR: " flags) (log.New 2%nat "FATAL: " flags)
                        [10%nat; 2%nat] false)
              sample_world eq_refl Hnd)
    as (w' & Hr & Ht & _).
  - intros c Hc. cbn in Hc.
    apply elem_of_cons in Hc as [->|Hc].
    + eexists. split; [reflexivity|]. split; reflexivity.
    + apply list_elem_of_singleton in Hc as ->.
      eexists. split; [reflexivity|]. split; reflexivity.
  - exists w'. split; [exact Hr|exact Ht].
Defined.

(** ** The mutex after every operation *)

Section Frees.

Variable Sprintf : string -> list fmt.value -> string.

Lemma frees_bind {A B} (m : Go A) (k : A -> Go B) :
  frees m -> (forall a, frees (k a)) -> frees (m ≫= k).
Proof.
  intros Hm Hk w Hl. unfold mbind, Go_bind. destruct (Hm w Hl) as [H1 H2].
  destruct (m w) as [[a| | |] w1]; cbn in *; try done.
  by apply Hk.
Qed.

Lemma frees_ret {A} (a : A) : frees (mret a : Go A).
Proof. by intros w Hl. Qed.

Lemma frees_output l s depth txt env : frees (output l s depth txt env).
Proof.
  intros w Hl. destruct (decide (In s severities)) as [Hs|Hs].
  - destruct l as [l|]; [by rewrite output_known | by rewrite output_nil].
  - by rewrite output_unknown.
Qed.

Lemma frees_Close l : frees (Close Sprintf l).
Proof.
  intros w Hl. destruct l as [l|]; [|by rewrite Close_nil].
  by destruct (Close_returns Sprintf l w Hl) as (w' & rest & -> & _ & _ & _ & ? & _).
Qed.

Lemma frees_get_then {A} (k : option Logger -> Go A) :
  (forall l, frees (k l)) -> frees (get_defaultLogger ≫= k).
Proof. intros Hk. apply frees_bind; [by intros w Hl|done]. Qed.

Lemma frees_run_call c env : frees (run_call Sprintf c env).
Proof.
  destruct c; cbn [run_call];
    unfold Info, Infof, Warning, Warningf, Error, Errorf, Fatal, Fatalf;
    apply frees_get_then; intros l; try apply frees_output.
  all: apply frees_bind; [apply frees_output|intros _];
    apply frees_get_then; intros l';
    apply frees_bind; [apply frees_Close|intros _]; by intros w Hl.
Qed.

Lemma frees_Write h d : frees (Write h d).
Proof.
  intros w Hl. destruct (Write_returns h d w) as (e & w' & -> & _ & Hl' & _).
  cbn. by rewrite Hl'.
Qed.

Lemma frees_op (o : Op) env : frees (run_op Sprintf o env).
Proof.
  destruct o as [c| |a b c d|n|e]; cbn [run_op].
  - apply frees_run_call.
  - apply frees_get_then, frees_Close.
  - by intros w Hl.
  - apply frees_bind; [|intros; apply frees_ret].
    unfold FileForSaving, log_Fatalln, log_Output.
    apply frees_bind; [|intros [h|err]]; [|apply frees_ret|].
    + intros w Hl. unfold os_OpenFile. by destruct (sys_open env n _ _).
    + apply frees_bind; [apply frees_Write|by intros _ w Hl].
  - apply frees_bind; [|intros; apply frees_ret].
    destruct e; by intros w Hl.
Qed.

Lemma frees_ops (p : list (Op * Env)) : frees (run_ops Sprintf p).
Proof.
  induction p as [|[o env] p IH]; cbn [run_ops]; [apply frees_ret|].
  apply frees_bind; [apply frees_op|done].
Qed.

End Frees.

(** X3: started with the mutex free, any run of operations of the package
    never waits for the mutex and ends with the mutex free, whether it
    returns, panics or exits: every [Lock] is paired with a deferred
    [Unlock], and no operation locks twice. *)
Theorem X3_mutex_free_after_any_run Sprintf (p : list (Op * Env)) (w : World) :
  logLock w = false ->
  logLock (snd (run_ops Sprintf p w)) = false
  /\ fst (run_ops Sprintf p w) <> Blocked.
Proof. apply frees_ops. Qed.

(** a log call before [Init] (it panics), in a run with others *)
Lemma X3_mutex_free_after_any_run_witness :
  logLock sample_world = false
  /\ logLock (snd (run_ops sample_Sprintf
                     [(OLog (CInfo [fmt.VString "early"]), sample_env);
                      (OInit 10%nat 10%nat 10%nat 10%nat, sample_env)]
                     sample_world)) = false
  /\ fst (run_ops sample_Sprintf
            [(OLog (CInfo [fmt.VString "early"]), sample_env);
             (OInit 10%nat 10%nat 10%nat 10%nat, sample_env)]
            sample_world) = Panic nilDeref.
Proof.
  split; [reflexivity|].
  split; [|reflexivity].
  apply (X3_mutex_free_after_any_run sample_Sprintf
           [(OLog (CInfo [fmt.VString "early"]), sample_env);
            (OInit 10%nat 10%nat 10%nat 10%nat, sample_env)]
           sample_world eq_refl).
Defined.

(** ** Severity calls on an initialized logger *)

Lemma Write_closed_flags (h h' : Handle) (d : string) (w : World) :
  closed <$> sinks (snd (Write h d w)) !! h' = closed <$> sinks w !! h'.
Proof.
  unfold Write.
  destruct (sinks w !! h) as [s|] eqn:Hs; [destruct (closed s) eqn:Hc|]; cbn;
    try done.
  destruct (decide (h = h')) as [<-|Hne].
  - by rewrite lookup_insert_eq, Hs; cbn; rewrite Hc.
  - by rewrite lookup_insert_ne.
Qed.

Lemma Write_refused (h : Handle) (d : string) (w : World) :
  (forall s, sinks w !! h = Some s -> closed s = true) ->
  sinks (snd (Write h d w)) = sinks w.
Proof.
  intros Hc. unfold Write.
  destruct (sinks w !! h) as [s|] eqn:Hs; [|done].
  by rewrite (Hc s eq_refl).
Qed.

(** A call that is not a fatal one is its [output]. *)
Lemma nonfatal_call_is_output Sprintf (c : Call) (env : Env) (w : World)
    (l : Logger) :
  is_fatal c = false -> defaultLogger w = Some l ->
  run_call Sprintf c env w
  = output (Some l) (call_severity c) 0 (call_text Sprintf c)
           (enter (at_line (call_line c)) env) w.
Proof.
  intros Hf Hd.
  destruct c; try discriminate Hf; cbn [run_call];
    unfold Info, Infof, Warning, Warningf, Error, Errorf;
    unfold mbind, Go_bind, get_defaultLogger; by rewrite Hd.
Qed.

(** X5: on an initialized logger with the mutex free, each of [Info],
    [Infof], [Warning], [Warningf], [Error] and [Errorf] returns normally
    after exactly one [Write] of its entry to the sink of its severity; the
    error of that [Write] is dropped, so a closed or unknown sink loses the
    entry without any sign; no other sink changes, and the mutex and the
    logger are left as they were. *)
Theorem X5_log_call_one_write_errors_dropped Sprintf (c : Call) (env : Env)
    (w : World) (l : Logger) :
  is_fatal c = false ->
  defaultLogger w = Some l ->
  logLock w = false ->
  exists w',
    run_call Sprintf c env w = (Ret tt, w')
    /\ trace w' = trace w ++ [EvWrite (call_entry Sprintf l (c, env)).1
                                      (call_entry Sprintf l (c, env)).2]
    /\ (forall h, h <> (call_entry Sprintf l (c, env)).1 ->
          sinks w' !! h = sinks w !! h)
    /\ ((forall s, sinks w !! (call_entry Sprintf l (c, env)).1 = Some s ->
                   closed s = true) ->
        sinks w' = sinks w)
    /\ logLock w' = false
    /\ defaultLogger w' = Some l.
Proof.
  intros Hf Hd Hl. rewrite (nonfatal_call_is_output Sprintf c env w l Hf Hd).
  rewrite output_known by (try done; apply call_severity_known).
  unfold call_entry. cbn [fst snd].
  set (h := log.out (severity_log l (call_severity c))).
  set (e := output_entry _ _ _ _ _).
  pose proof (fun h' => Write_content_other h h' e (set_logLock true w)) as Ho.
  pose proof (Write_refused h e (set_logLock true w)) as Hr.
  destruct (Write_returns h e (set_logLock true w)) as (er & w1 & Hw & Ht & _ & Hd1).
  rewrite Hw in Ho, Hr |- *. cbn [snd] in *.
  eexists. split; [reflexivity|]. cbn in Hd1 |- *.
  repeat split; [done|auto|auto|congruence].
Qed.

(** [Error("x")] on a logger whose sink [11] is closed already *)
Lemma X5_log_call_one_write_errors_dropped_witness :
  let w := mkWorld (<[11%nat := mkSink "audit.log" "" true None]> ∅) [] false
                   (Some (mkLogger (log.New 11%nat "INFO: " flags)
                                   (log.New 11%nat "WARNING: " flags)
                                   (log.New 11%nat "ERROR: " flags)
                                   (log.New 11%nat "FATAL: " flags) [] false)) in
  logLock w = false
  /\ exists w',
      run_call sample_Sprintf (CError [fmt.VString "x"]) sample_env w = (Ret tt, w')
      /\ sinks w' = sinks w.
Proof.
  cbn zeta. split; [reflexivity|].
  destruct (X5_log_call_one_write_errors_dropped sample_Sprintf
              (CError [fmt.VString "x"]) sample_env
              (mkWorld (<[11%nat := mkSink "audit.log" "" true None]> ∅) [] false
                 (Some (mkLogger (log.New 11%nat "INFO: " flags)
                                 (log.New 11%nat "WARNING: " flags)
                                 (log.New 11%nat "ERROR: " flags)
                                 (log.New 11%nat "FATAL: " flags) [] false)))
              _ eq_refl eq_refl eq_refl)
    as (w' & Hr & _ & _ & Hsame & _).
  exists w'. split; [exact Hr|]. apply Hsame.
  cbn. intros s Hs. rewrite lookup_insert_eq in Hs. by injection Hs as <-.
Defined.

Lemma nonfatal_call_open Sprintf (c : Call) (env : Env) (w : World)
    (l : Logger) (s : Sink) :
  is_fatal c = false -> defaultLogger w = Some l -> logLock w = false ->
  sinks w !! (call_entry Sprintf l (c, env)).1 = Some s -> closed s = false ->
  exists w',
    run_call Sprintf c env w = (Ret tt, w')
    /\ sinks w' = <[(call_entry Sprintf l (c, env)).1
                    := received (call_entry Sprintf l (c, env)).2 s]> (sinks w)
    /\ logLock w' = false
    /\ defaultLogger w' = Some l.
Proof.
  intros Hf Hd Hl Hs Hc. rewrite (nonfatal_call_is_output Sprintf c env w l Hf Hd).
  rewrite output_known by (try done; apply call_severity_known).
  unfold call_entry in *. cbn [fst snd] in *.
  erewrite Write_open; [|exact Hs|exact Hc].
  eexists. split; [reflexivity|]. cbn. done.
Qed.

Lemma content_of_received (m : gmap nat Sink) (h h' : Handle) (e : string)
    (s : Sink) :
  m !! h = Some s ->
  content_of (<[h := received e s]> m) h'
  = content_of m h' +:+ (if decide (h = h') then e else "").
Proof.
  intros Hs. unfold content_of. destruct (decide (h = h')) as [<-|Hne].
  - by rewrite lookup_insert_eq, Hs.
  - rewrite lookup_insert_ne by done. by rewrite append_nil_r.
Qed.

(** X4: on an initialized logger whose sinks are open, a run of calls that
    are not fatal ones returns normally and leaves in every sink what it
    held before followed by the entries of the calls bound to it, in the
    order of the calls, also when several severities share the sink. *)
Theorem X4_calls_append_in_call_order Sprintf (cs : list (Call * Env))
    (w : World) (l : Logger) :
  defaultLogger w = Some l ->
  logLock w = false ->
  (forall ce, ce ∈ cs -> is_fatal ce.1 = false) ->
  (forall ce, ce ∈ cs ->
     exists s, sinks w !! (call_entry Sprintf l ce).1 = Some s
               /\ closed s = false) ->
  exists w',
    run_ops Sprintf (log_ops cs) w = (Ret tt, w')
    /\ forall h,
        content_of (sinks w') h
        = content_of (sinks w) h +:+ begun_for h (map (call_entry Sprintf l) cs).
Proof.
  revert w. induction cs as [|[c env] cs IH]; intros w Hd Hl Hf Ho.
  - exists w. split; [done|]. intros h. cbn. by rewrite append_nil_r.
  - destruct (Ho (c, env)) as (s & Hs & Hc); [by left|].
    destruct (nonfatal_call_open Sprintf c env w l s) as (w1 & Hr & Hs1 & Hl1 & Hd1);
      [by apply (Hf (c, env)); left|done|done|done|done|].
    destruct (IH w1 Hd1 Hl1) as (w' & Hr' & Hcont).
    { intros ce Hce. apply Hf. by right. }
    { intros ce Hce. destruct (Ho ce) as (s' & Hs' & Hc'); [by right|].
      rewrite Hs1.
      destruct (decide ((call_entry Sprintf l (c, env)).1
                        = (call_entry Sprintf l ce).1)) as [E|E].
      - rewrite <- E, lookup_insert_eq. eexists. split; [done|]. done.
      - rewrite lookup_insert_ne by done. eauto. }
    exists w'. split.
    + cbn [log_ops map run_ops fst snd run_op]. unfold mbind, Go_bind.
      rewrite Hr. exact Hr'.
    + intros h. rewrite Hcont, Hs1, (content_of_received _ _ _ _ _ Hs).
      cbn [map begun_for foldr]. by rewrite append_assoc.
Qed.

(** [Info("a")] then [Warning("b")] on one shared file *)
Lemma X4_calls_append_in_call_order_witness :
  defaultLogger sample_world_logging
  = Some (mkLogger (log.New 10%nat "INFO: " flags) (log.New 10%nat "WARNING: " flags)
                   (log.New 10%nat "ERROR: " flags) (log.New 10%nat "FATAL: " flags)
                   [] false)
  /\ logLock sample_world_logging = false
  /\ exists w',
      run_ops sample_Sprintf
              (log_ops [(CInfo [fmt.VString "a"], sample_env);
                        (CWarning [fmt.VString "b"], sample_env)])
              sample_world_logging = (Ret tt, w')
      /\ content_of (sinks w') 10%nat
         = "INFO: 2024/03/07 09:05:01 main.go:42: a" +:+ nl
           +:+ "WARNING: 2024/03/07 09:05:01 main.go:42: b" +:+ nl.
Proof.
  split; [reflexivity|]. split; [reflexivity|].
  destruct (X4_calls_append_in_call_order sample_Sprintf
              [(CInfo [fmt.VString "a"], sample_env);
               (CWarning [fmt.VString "b"], sample_env)]
              sample_world_logging _ eq_refl eq_refl)
    as (w' & Hr & Hc).
  - intros ce Hce. apply elem_of_cons in Hce as [->|Hce]; [reflexivity|].
    apply list_elem_of_singleton in Hce as ->. reflexivity.
  - intros ce Hce. exists (sample_file "app.log").
    apply elem_of_cons in Hce as [->|Hce]; [split; reflexivity|].
    apply list_elem_of_singleton in Hce as ->. split; reflexivity.
  - exists w'. split; [exact Hr|]. rewrite Hc. reflexivity.
Defined.

(** ** The entry for any message *)

Lemma last_byte_length (s : string) (c : ascii) :
  last_byte s = Some c -> String.length s <> 0%nat.
Proof. by destruct s. Qed.

Lemma last_byte_app (a b : string) (c : ascii) :
  last_byte b = Some c -> last_byte (a +:+ b) = Some c.
Proof.
  intros Hb. induction a as [|x a IH]; [done|].
  cbn [String.append last_byte]. rewrite IH.
  destruct (a +:+ b) eqn:E; [|done].
  destruct a; [|done]. cbn in E. by subst.
Qed.

Lemma count_nl_line_header (s : severity) (t : Civil) (site : Frame) :
  In s severities -> 0 <= line site -> count_nl (file site) = 0%nat ->
  count_nl (line_header s t site) = 0%nat.
Proof.
  intros Hs Hl Hf. unfold line_header, numeral.
  rewrite !count_nl_app, !count_nl_dec, count_nl_shortfile,
    count_nl_numeral_digits by done.
  apply severities_cases in Hs as [-> | [-> | [-> | ->]]]; reflexivity.
Qed.

Lemma count_nl_closing (txt : string) :
  count_nl (closing_nl txt) = (if ends_with_LF txt then 0 else 1)%nat.
Proof. unfold closing_nl. by destruct (ends_with_LF txt). Qed.

(** The entry of a logger built by [Init], for any text. *)
Lemma entry_any_text (s : severity) (h : Handle) (f1 f2 site : Frame)
    (rest : list Frame) (txt : string) (env : Env) :
  callers env = site :: rest ->
  valid_clock (local (now env)) ->
  0 <= line site < 10 ^ 20 ->
  log.entry (log.New h (severity_name s +:+ ": ") flags) (3 + 0) txt
            (enter f1 (enter f2 env))
  = line_header s (local (now env)) site +:+ txt +:+ closing_nl txt.
Proof.
  intros Hc Ht Hl. unfold log.entry.
  cbn [log.flag log.prefix].
  destruct flags_bits as (_ & _ & _ & _ & _ & _ & -> & _).
  change (3 + 0) with 3. rewrite (Caller_three f1 f2 site rest env Hc).
  change (now (enter f1 (enter f2 env))) with (now env).
  rewrite formatHeader_flags by done.
  unfold closing_nl, ends_with_LF, line_header.
  destruct (bool_decide (last_byte txt = Some LF)) eqn:E.
  - apply bool_decide_eq_true in E.
    assert ((String.length txt =? 0)%nat = false) as ->.
    { apply Nat.eqb_neq. by eapply last_byte_length. }
    cbn [negb orb]. rewrite !append_assoc, append_nil_r. reflexivity.
  - cbn [negb]. rewrite orb_true_r. rewrite !append_assoc. reflexivity.
Qed.

(** After [Init], a call with any text on an open sink. *)
Lemma Init_call_any_text Sprintf (c : Call) (env : Env) (w : World)
    (infoHandle warningHandle errorHandle fatalHandle : Handle)
    (site : Frame) (rest : list Frame) (snk : Sink) :
  logLock w = false ->
  callers env = site :: rest ->
  valid_clock (local (now env)) ->
  0 <= line site < 2 ^ 63 ->
  sinks w !! handle_for (call_severity c) infoHandle warningHandle
                        errorHandle fatalHandle = Some snk ->
  closed snk = false ->
  exists w',
    (Init infoHandle warningHandle errorHandle fatalHandle ;;
     run_call Sprintf c env) w
    = (if is_fatal c then Exit 1 else Ret tt, w')
    /\ sinks w'
       = <[handle_for (call_severity c) infoHandle warningHandle
                      errorHandle fatalHandle
           := received (line_header (call_severity c) (local (now env)) site
                        +:+ call_text Sprintf c
                        +:+ closing_nl (call_text Sprintf c)) snk]> (sinks w).
Proof.
  intros Hl Hc Ht Hln Hs Hcl.
  unfold mbind at 1. unfold Go_bind at 1. rewrite Init_returns.
  erewrite run_call_output; [|reflexivity|exact Hl|reflexivity].
  rewrite output_known; [|exact Hl|apply call_severity_known].
  unfold output_entry. rewrite Init_severity_log by apply call_severity_known.
  cbn [log.out].
  rewrite entry_any_text with (site := site) (rest := rest); [|done|done|lia].
  erewrite Write_open; [|exact Hs|exact Hcl].
  eexists. split; [reflexivity|]. cbn. done.
Qed.

(** X6: after [Init], a severity call with any text, also one with line
    breaks or an empty one, appends to the open sink of its severity the
    header, the text as it is and a newline unless the text already ends
    in one; so the bytes appended always end in a newline and hold as many
    line breaks as the text, plus one when the text does not end in a
    newline. *)
Theorem X6_entry_for_any_text Sprintf (c : Call) (env : Env) (w : World)
    (infoHandle warningHandle errorHandle fatalHandle : Handle)
    (site : Frame) (rest : list Frame) (snk : Sink) :
  logLock w = false ->
  callers env = site :: rest ->
  valid_clock (local (now env)) ->
  0 <= line site < 2 ^ 63 ->
  count_nl (file site) = 0%nat ->
  sinks w !! handle_for (call_severity c) infoHandle warningHandle
                        errorHandle fatalHandle = Some snk ->
  closed snk = false ->
  let h := handle_for (call_severity c) infoHandle warningHandle
                      errorHandle fatalHandle in
  let txt := call_text Sprintf c in
  let data := line_header (call_severity c) (local (now env)) site
              +:+ txt +:+ closing_nl txt in
  (exists w',
      (Init infoHandle warningHandle errorHandle fatalHandle ;;
       run_call Sprintf c env) w
      = (if is_fatal c then Exit 1 else Ret tt, w')
      /\ sinks w' = <[h := received data snk]> (sinks w))
  /\ count_nl data
     = (count_nl txt + (if ends_with_LF txt then 0 else 1))%nat
  /\ last_byte data = Some LF.
Proof.
  intros Hl Hc Ht Hln Hf Hs Hcl h txt data.
  split; [|split].
  - by apply Init_call_any_text with (rest := rest).
  - unfold data. rewrite !count_nl_app, count_nl_closing.
    rewrite count_nl_line_header; [done|apply call_severity_known|lia|done].
  - unfold data, closing_nl, ends_with_LF.
    destruct (bool_decide (last_byte txt = Some LF)) eqn:E.
    + apply bool_decide_eq_true in E. rewrite append_nil_r.
      by apply last_byte_app.
    + rewrite <- append_assoc. apply last_byte_app_nl.
Qed.

(** [Info("a\n")]: the text ends in a newline, none is added *)
Lemma X6_entry_for_any_text_witness :
  logLock sample_world = false
  /\ valid_clock (local (now sample_env))
  /\ exists w',
      (Init 10%nat 10%nat 10%nat 10%nat ;;
       run_call sample_Sprintf (CInfo [fmt.VString ("a" +:+ nl)]) sample_env)
        sample_world = (Ret tt, w')
      /\ content <$> sinks w' !! 10%nat
         = Some ("INFO: 2024/03/07 09:05:01 main.go:42: a" +:+ nl).
Proof.
  split; [reflexivity|]. split; [unfold valid_clock; cbn; lia|].
  destruct (X6_entry_for_any_text sample_Sprintf
              (CInfo [fmt.VString ("a" +:+ nl)]) sample_env
              sample_world 10%nat 10%nat 10%nat 10%nat
              (mkFrame "/home/u/app/main.go" 42)
              [mkFrame "/usr/go/runtime/proc.go" 250]
              (sample_file "app.log"))
    as [(w' & Hrun & Hsinks) _];
    [reflexivity|reflexivity|unfold valid_clock; cbn; lia|cbn; lia
    |reflexivity|reflexivity|reflexivity|].
  exists w'. split; [exact Hrun|].
  rewrite Hsinks. cbn [handle_for call_severity].
  rewrite lookup_insert_eq. reflexivity.
Defined.

(** ** Fatal calls after [Init] *)

(** X15: after [Init], [Fatal] and [Fatalf] write their entry to the fatal
    sink and exit with status 1 without asking any sink to close: the
    only event is that one write, and every sink that was open is still
    open. *)
Theorem X15_Fatal_after_Init_closes_nothing Sprintf (c : Call) (env : Env)
    (w : World) (infoHandle warningHandle errorHandle fatalHandle : Handle) :
  is_fatal c = true ->
  logLock w = false ->
  exists w' e,
    (Init infoHandle warningHandle errorHandle fatalHandle ;;
     run_call Sprintf c env) w = (Exit 1, w')
    /\ trace w' = trace w ++ [EvWrite fatalHandle e]
    /\ forall h, closed <$> sinks w' !! h = closed <$> sinks w !! h.
Proof.
  intros Hf Hl.
  unfold mbind at 1. unfold Go_bind at 1. rewrite Init_returns.
  erewrite run_call_output; [|reflexivity|exact Hl|reflexivity].
  rewrite Hf.
  rewrite output_known; [|exact Hl|apply call_severity_known].
  rewrite Init_severity_log by apply call_severity_known.
  replace (handle_for (call_severity c) infoHandle warningHandle errorHandle
                      fatalHandle) with fatalHandle
    by (by destruct c).
  cbn [log.out].
  match goal with |- context [Write ?h0 ?d ?w0] =>
    pose proof (fun h' => Write_closed_flags h0 h' d w0) as Hcf;
    destruct (Write_returns h0 d w0) as (er & w1 & Hw & Ht & _) end.
  rewrite Hw in Hcf |- *. cbn [snd] in Hcf.
  eexists _, _. split; [reflexivity|]. cbn. split; [exact Ht|exact Hcf].
Qed.

(** [Fatal("boom")] after [Init] on the sample file *)
Lemma X15_Fatal_after_Init_closes_nothing_witness :
  logLock sample_world = false
  /\ exists w',
      (Init 10%nat 10%nat 10%nat 10%nat ;;
       run_call sample_Sprintf (CFatal [fmt.VString "boom"]) sample_env)
        sample_world = (Exit 1, w')
      /\ closed <$> sinks w' !! 10%nat = Some false.
Proof.
  split; [reflexivity|].
  destruct (X15_Fatal_after_Init_closes_nothing sample_Sprintf
              (CFatal [fmt.VString "boom"]) sample_env sample_world
              10%nat 10%nat 10%nat 10%nat eq_refl eq_refl)
    as (w' & e & Hr & _ & Hc).
  exists w'. split; [exact Hr|]. rewrite Hc. reflexivity.
Defined.

(** ** Wrapping errors *)

(** X7: wrapping an error that [Return] already wrapped keeps the message
    and drops the earlier stack trace: the result is the one that wrapping
    a plain error with the same message at the second site gives. *)
Theorem X7_rewrap_drops_first_trace `{error E} (e : E) (env1 env2 : Env)
    (w : World) :
  exists r1 r2,
    Return (Some e) env1 w = (Ret r1, w)
    /\ Return (Some r1) env2 w = (Ret r2, w)
    /\ Error_of r2 = Error_of e
    /\ StackTrace (embedded r2)
       = stack_dump env2 (at_line 149 :: at_line 155 :: callers env2)
    /\ Return (Some r1) env2 w
       = Return (Some (errors_New (Error_of e))) env2 w.
Proof. eexists _, _. repeat split. Qed.

(** X8: [Return] returns an error exactly when it is given one: on the
    nil error it panics with a nil dereference, so it cannot be used to
    pass a nil error through; it never touches the world. *)
Theorem X8_Return_nil_panics `{error E} (err : option E) (env : Env) (w : World) :
  ((exists r, Return err env w = (Ret r, w)) <-> err <> None)
  /\ (err = None -> Return err env w = (Panic nilDeref, w))
  /\ snd (Return err env w) = w.
Proof.
  destruct err as [e|]; cbn.
  - repeat split; try done. by eexists.
  - split; [|done]. split; [intros [r Hr]; discriminate Hr|done].
Qed.

(** ** The file helper with the rest of the package *)

Lemma handle_for_same (s : severity) (h : Handle) : handle_for s h h h h = h.
Proof. unfold handle_for. by repeat case_match. Qed.

(** X9: a file that [FileForSaving] opened, handed to [Init] for all four
    severities, receives the entry of the next severity call after the
    bytes it held when opened; its handle was not in use before. *)
Theorem X9_open_Init_log Sprintf (fileName : string) (env0 : Env) (c : Call)
    (env : Env) (w : World) (f : Sink) (site : Frame) (rest : list Frame) :
  sys_open env0 fileName (Z.lor O_CREATE (Z.lor O_WRONLY O_APPEND)) 438 = inl f ->
  closed f = false ->
  logLock w = false ->
  callers env = site :: rest ->
  valid_clock (local (now env)) ->
  0 <= line site < 2 ^ 63 ->
  exists h w0 w',
    FileForSaving fileName env0 w = (Ret h, w0)
    /\ sinks w !! h = None
    /\ (Init h h h h ;; run_call Sprintf c env) w0
       = (if is_fatal c then Exit 1 else Ret tt, w')
    /\ content <$> sinks w' !! h
       = Some (content f
               +:+ line_header (call_severity c) (local (now env)) site
               +:+ call_text Sprintf c +:+ closing_nl (call_text Sprintf c)).
Proof.
  intros Ho Hcl Hl Hc Ht Hln.
  unfold FileForSaving, os_OpenFile, mbind at 1, Go_bind at 1.
  change 0x1b6 with 438. rewrite Ho.
  set (h := fresh (dom (sinks w))).
  set (w0 := set_sinks (insert h f) _).
  destruct (Init_call_any_text Sprintf c env w0 h h h h site rest f)
    as (w' & Hr & Hs); try done.
  { rewrite handle_for_same. unfold w0. cbn. by rewrite lookup_insert_eq. }
  exists h, w0, w'. split; [reflexivity|].
  split; [apply fresh_handle_unused|]. split; [exact Hr|].
  rewrite Hs, handle_for_same, lookup_insert_eq. reflexivity.
Qed.

(** a kernel that opens an empty file *)
Lemma X9_open_Init_log_witness :
  let env0 := mkEnv sample_time [] (fun _ => "")
                    (fun _ _ _ => inl (sample_file "new.log")) in
  exists h w0 w',
    FileForSaving "new.log" env0 sample_world = (Ret h, w0)
    /\ (Init h h h h ;;
        run_call sample_Sprintf (CErrorf "disk full" []) sample_env) w0
       = (Ret tt, w')
    /\ content <$> sinks w' !! h
       = Some ("ERROR: 2024/03/07 09:05:01 main.go:42: disk full" +:+ nl).
Proof.
  cbn zeta.
  destruct (X9_open_Init_log sample_Sprintf "new.log"
              (mkEnv sample_time [] (fun _ => "")
                     (fun _ _ _ => inl (sample_file "new.log")))
              (CErrorf "disk full" []) sample_env sample_world
              (sample_file "new.log") (mkFrame "/home/u/app/main.go" 42)
              [mkFrame "/usr/go/runtime/proc.go" 250])
    as (h & w0 & w' & Hf & _ & Hr & Hc);
    [reflexivity|reflexivity|reflexivity|reflexivity
    |unfold valid_clock; cbn; lia|cbn; lia|].
  exists h, w0, w'. split; [exact Hf|]. split; [exact Hr|].
  rewrite Hc. reflexivity.
Defined.

(** X10: [FileForSaving] works apart from the logger: whether or not the
    mutex is held it does not wait, it leaves the mutex, the process-wide
    logger and every sink already open other than standard error as they
    were, asks no sink to close, and writes nowhere but to standard error;
    so on failure the process exits with the logger's sinks still open. *)
Theorem X10_FileForSaving_apart_from_logger (fileName : string) (env : Env)
    (w : World) :
  exists o w' rest,
    FileForSaving fileName env w = (o, w')
    /\ o <> Blocked
    /\ logLock w' = logLock w
    /\ defaultLogger w' = defaultLogger w
    /\ trace w' = trace w ++ rest
    /\ close_events rest = []
    /\ Forall (fun h => h = Stderr) (write_targets rest)
    /\ forall h s, sinks w !! h = Some s -> h <> Stderr ->
                   sinks w' !! h = Some s.
Proof.
  unfold FileForSaving, os_OpenFile, mbind, Go_bind.
  destruct (sys_open env fileName _ _) as [f|err].
  - eexists _, _, [_]. split; [reflexivity|]. cbn.
    repeat split; try done.
    intros h s Hs _. rewrite lookup_insert_ne; [done|].
    intros <-. by rewrite fresh_handle_unused in Hs.
  - unfold log_Fatalln, log_Output, os_Exit, mbind, Go_bind.
    match goal with |- context [Write ?h0 ?d ?w0] =>
      pose proof (fun h' => Write_content_other h0 h' d w0) as Ho;
      destruct (Write_returns h0 d w0) as (e' & w2 & Hw & Ht & Hl & Hd) end.
    rewrite Hw in Ho |- *. cbn [snd] in Ho.
    eexists _, w2, [_; _]. split; [reflexivity|].
    split; [done|]. split; [done|]. split; [done|].
    split; [rewrite Ht; cbn; by rewrite <- app_assoc|].
    split; [done|]. split; [cbn; by constructor|].
    intros h s Hs Hne. rewrite Ho by done. done.
Qed.

(** ** [Init] again *)

(** X11: [Init] does not use the mutex and a later [Init] replaces the
    logger of an earlier one whole: any run of operations after two
    [Init]s goes as after the second one alone. *)
Theorem X11_last_Init_wins Sprintf (a b c d a' b' c' d' : Handle)
    (env1 env2 : Env) (p : list (Op * Env)) (w : World) :
  run_ops Sprintf ((OInit a b c d, env1) :: (OInit a' b' c' d', env2) :: p) w
  = run_ops Sprintf ((OInit a' b' c' d', env2) :: p) w
  /\ fst (Init a b c d w) = Ret tt
  /\ logLock (snd (Init a b c d w)) = logLock w
  /\ sinks (snd (Init a b c d w)) = sinks w.
Proof.
  split; [|done]. cbn [run_ops run_op]. unfold mbind, Go_bind.
  rewrite !Init_returns. reflexivity.
Qed.

(** X13: only [Init] assigns the process-wide logger: a run of operations
    with no [Init] in it, however it ends, leaves [defaultLogger] as it
    was; in particular it stays nil in a process that never called
    [Init]. *)
Theorem X13_only_Init_assigns_logger Sprintf (p : list (Op * Env)) (w : World) :
  (forall o env a b c d, (o, env) ∈ p -> o <> OInit a b c d) ->
  defaultLogger (snd (run_ops Sprintf p w)) = defaultLogger w.
Proof.
  revert w. induction p as [|[o env] p IH]; intros w Hp; [done|].
  cbn [run_ops]. unfold mbind, Go_bind.
  assert (forall a b c d, o <> OInit a b c d) as Hne.
  { intros a b c d. apply (Hp o env). by left. }
  pose proof (op_keeps_logger Sprintf o env Hne w) as Hk.
  destruct (run_op Sprintf o env w) as [[[]| | |] w1]; cbn [snd] in *; try done.
  rewrite IH; [done|]. intros o' env' a b c d Hin. apply (Hp o' env'). by right.
Qed.

(** a failed open and a log call in a process that never called [Init] *)
Lemma X13_only_Init_assigns_logger_witness :
  defaultLogger (snd (run_ops sample_Sprintf
                        [(OFileForSaving "app.log", sample_env);
                         (OLog (CInfo [fmt.VString "x"]), sample_env)]
                        sample_world)) = None.
Proof.
  apply (X13_only_Init_assigns_logger sample_Sprintf
           [(OFileForSaving "app.log", sample_env);
            (OLog (CInfo [fmt.VString "x"]), sample_env)] sample_world).
  intros o env a b c d Hin Ho. subst o.
  apply elem_of_cons in Hin as [Hin|Hin]; [discriminate Hin|].
  apply list_elem_of_singleton in Hin. discriminate Hin.
Defined.

(** ** What a severity call reads from its environment *)

Lemma formatHeader_reads (buf : string) (t1 t2 : Time) (p file : string)
    (line : Z) :
  Time_Date t1 = Time_Date t2 -> Time_Clock t1 = Time_Clock t2 ->
  log.formatHeader buf t1 p flags file line
  = log.formatHeader buf t2 p flags file line.
Proof.
  intros Hd Hc.
  destruct flags_bits as (F1 & F2 & F3 & F4 & F5 & F6 & F7 & F8).
  unfold log.formatHeader. rewrite F1, F2, F3, F4, F5, F6, F7, F8.
  by rewrite Hd, Hc.
Qed.

Lemma entry_reads (h : Handle) (p : string) (calldepth : Z) (s : string)
    (f1 f2 : Frame) (env1 env2 : Env) :
  callers env1 = callers env2 ->
  Time_Date (now env1) = Time_Date (now env2) ->
  Time_Clock (now env1) = Time_Clock (now env2) ->
  log.entry (log.New h p flags) calldepth s (enter f1 (enter f2 env1))
  = log.entry (log.New h p flags) calldepth s (enter f1 (enter f2 env2)).
Proof.
  intros Hc Hd Ht. unfold log.entry, runtime_Caller, enter.
  cbn [log.flag log.prefix callers now]. rewrite Hc.
  destruct (log.has flags _);
    [destruct (if calldepth <? 0 then None else _) as [f|]|];
    by rewrite (formatHeader_reads _ _ _ _ _ _ Hd Ht).
Qed.

(** X14: after [Init], a severity call reads from its environment only the
    call stack and the local date and clock time to the second: two
    environments that agree on these give the same outcome and the same
    world, whatever their UTC reading, their fraction of a second and the
    rest. *)
Theorem X14_call_reads_stack_and_local_time Sprintf (c : Call)
    (env1 env2 : Env) (w : World)
    (infoHandle warningHandle errorHandle fatalHandle : Handle) :
  logLock w = false ->
  callers env1 = callers env2 ->
  Time_Date (now env1) = Time_Date (now env2) ->
  Time_Clock (now env1) = Time_Clock (now env2) ->
  (Init infoHandle warningHandle errorHandle fatalHandle ;;
   run_call Sprintf c env1) w
  = (Init infoHandle warningHandle errorHandle fatalHandle ;;
     run_call Sprintf c env2) w.
Proof.
  intros Hl Hc Hd Ht.
  unfold mbind, Go_bind. rewrite Init_returns.
  erewrite !run_call_output; try reflexivity; try exact Hl.
  rewrite !output_known; try exact Hl; try apply call_severity_known.
  unfold output_entry. rewrite Init_severity_log by apply call_severity_known.
  by rewrite (entry_reads _ _ _ _ _ _ env1 env2 Hc Hd Ht).
Qed.

(** the same instant read with another UTC offset and other nanoseconds *)
Lemma X14_call_reads_stack_and_local_time_witness :
  let env2 := mkEnv (mkTime (mkCivil 2024 3 7 9 5 1 999)
                            (mkCivil 2024 3 7 7 5 1 999))
                    (callers sample_env) (fun _ => "") (fun _ _ _ => inr "") in
  logLock sample_world = false
  /\ (Init 10%nat 10%nat 10%nat 10%nat ;;
      run_call sample_Sprintf (CInfo [fmt.VString "a"]) sample_env) sample_world
     = (Init 10%nat 10%nat 10%nat 10%nat ;;
        run_call sample_Sprintf (CInfo [fmt.VString "a"]) env2) sample_world.
Proof.
  cbn zeta. split; [reflexivity|].
  apply (X14_call_reads_stack_and_local_time sample_Sprintf
           (CInfo [fmt.VString "a"]) sample_env
           (mkEnv (mkTime (mkCivil 2024 3 7 9 5 1 999)
                          (mkCivil 2024 3 7 7 5 1 999))
                  (callers sample_env) (fun _ => "") (fun _ _ _ => inr ""))
           sample_world 10%nat 10%nat 10%nat 10%nat); reflexivity.
Defined.

(** ** Goroutines: no deadlock *)

Section NoDeadlock.

Variable Sprintf : string -> list fmt.value -> string.





End NoDeadlock.


